(** * camera.py: periodic frame capture from a camera stream

    A shallow embedding of [src/camera.py] and the properties of its two
    capture loops.

    Conventions of the embedding.
    - Addresses, timestamps and paths are [string]s.  Addresses are taken
      to be ASCII, as URLs are; [lower] is Python's [str.lower] on them.
    - [time.time()] and [interval] are integers [Z] (seconds in some fixed
      unit); the program only subtracts and compares them, and prints the
      interval.
    - Every call into OpenCV, requests, os or time, and every [print],
      is recorded as an [event]; what the call returns is read from a
      script that is an argument of the model.  A script is finite: a
      run that uses it up is [Blocked], the prefix of a run that is
      still waiting for its next frame or response.
    - [os.path.join] is the POSIX one (separator [/]).
    - Ctrl-C is followed where the program handles it, in the snapshot
      poller, at its two blocking calls ([requests.get], [time.sleep]).
      Exceptions of OpenCV and of the file system are outside the model:
      [cv2.imwrite] reports a failed write by its result, which the
      program drops.  So are sleeps longer than CPython takes
      ([max_sleep]). *)

From Stdlib Require Import String Ascii List ZArith Bool Lia Arith.
From Stdlib Require Import DecimalString DecimalNat Sorted.
Import ListNotations.
Local Open Scope string_scope.
Local Open Scope list_scope.

(** ** Strings: the fragment of Python's [str] the program uses *)

Module Str.

(** [c.lower()] on an ASCII character. *)
Definition lower_ascii (c : ascii) : ascii :=
  let n := nat_of_ascii c in
  if (65 <=? n)%nat && (n <=? 90)%nat then ascii_of_nat (n + 32) else c.

(** [s.lower()] *)
Fixpoint lower (s : string) : string :=
  match s with
  | EmptyString => EmptyString
  | String c s' => String (lower_ascii c) (lower s')
  end.

(** [s.startswith(p)] *)
Fixpoint startswith (s p : string) {struct p} : bool :=
  match p with
  | EmptyString => true
  | String a p' =>
      match s with
      | EmptyString => false
      | String b s' => Ascii.eqb a b && startswith s' p'
      end
  end.

(** [s.endswith(suf)] *)
Fixpoint endswith (s suf : string) : bool :=
  String.eqb s suf ||
  match s with
  | EmptyString => false
  | String _ s' => endswith s' suf
  end.

(** [needle in s] *)
Fixpoint contains (needle s : string) : bool :=
  startswith s needle ||
  match s with
  | EmptyString => false
  | String _ s' => contains needle s'
  end.

(** [str(n)] for a non-negative [int] *)
Definition of_nat (n : nat) : string :=
  NilEmpty.string_of_uint (Nat.to_uint n).

(** [str(z)] for an [int] *)
Definition of_Z (z : Z) : string :=
  NilEmpty.string_of_int (Z.to_int z).

End Str.

(** ** The source classifier (camera.py, line 30) *)

(** [stream_url.endswith('.jpg') or 'snap' in stream_url.lower()] *)
Definition is_snapshot (stream_url : string) : bool :=
  Str.endswith stream_url ".jpg" || Str.contains "snap" (Str.lower stream_url).

Inductive source_kind := Snapshot | ContinuousStream.

(** The branch [capture_stream] takes on [is_snapshot]. *)
Definition classify (stream_url : string) : source_kind :=
  if is_snapshot stream_url then Snapshot else ContinuousStream.

(** ** The world the program runs in *)

(** A decoded raster image.  The program never inspects pixel data, so a
    frame is known by an identifier. *)
Definition image := nat.

(** The lines the program prints, one constructor per [print] statement. *)
Inductive message :=
| MsgSavedTo (output_folder : string)
| MsgDetected (stream_url : string)
| MsgConnecting (stream_url : string)
| MsgOpenError
| MsgEvery (interval : Z)
| MsgCtrlC
| MsgReadError
| MsgCaptured (frame_count : nat) (timestamp : string)
| MsgNotSaved (frame_count : nat) (timestamp : string)
| MsgStopping
| MsgTotal (frame_count : nat)
| MsgDecodeWarning
| MsgBadStatus (status_code : Z)
| MsgFetchError (e : string)
| MsgWaiting (interval : Z).

Definition nl : string := String "010" EmptyString.

(** The text of each line, as the f-strings of camera.py build it. *)
Definition render (m : message) : string :=
  match m with
  | MsgSavedTo d => "Frames will be saved to: " ++ d ++ "/"
  | MsgDetected u => "Detected snapshot URL: " ++ u
  | MsgConnecting u => "Connecting to stream: " ++ u
  | MsgOpenError => "Error: Could not open stream"
  | MsgEvery i => "Capturing every " ++ Str.of_Z i ++ " seconds"
  | MsgCtrlC => "Press Ctrl+C to quit" ++ nl
  | MsgReadError => "Error: Failed to read frame"
  | MsgCaptured n t => "Captured frame " ++ Str.of_nat n ++ " at " ++ t
  | MsgNotSaved n t =>
      "Frame " ++ Str.of_nat n ++ " captured at " ++ t ++ " (not saved)"
  | MsgStopping => nl ++ "Stopping capture..."
  | MsgTotal n => nl ++ "Total frames captured: " ++ Str.of_nat n
  | MsgDecodeWarning => "Warning: Could not decode image"
  | MsgBadStatus c => "Error: Got response code " ++ Str.of_Z c
  | MsgFetchError e => "Error fetching image: " ++ e
  | MsgWaiting i =>
      "Waiting " ++ Str.of_Z i ++ " seconds until next capture..."
  end.

(** The calls with an effect outside the process, in program order. *)
Inductive event :=
| Print (m : message)
| Makedirs (path : string)
| VideoCapture (stream_url : string)
| Read (frame : option image)
| Imwrite (filename : string) (frame : image) (ok : bool)
| Imshow (frame : image)
| WaitKey (ms : Z)
| Release
| DestroyAllWindows
| Get (stream_url : string) (timeout : Z)
| Sleep (seconds : Z).

(** The part of the file system the program touches: [dirs] holds the
    paths for which [os.path.exists] answers true, [files] the frame
    files written. *)
Record filesystem := mkFs { dirs : list string; files : list string }.

Inductive exn :=
| UnboundLocalError (name : string)
| KeyboardInterrupt
| RequestException (e : string)
| ValueError.

(** How a computation leaves: with a value, with an exception, or still
    waiting for input the script does not hold ([Blocked]: the observed
    prefix of a run that goes on). *)
Inductive result (A : Type) :=
| Ok (a : A)
| Err (e : exn)
| Blocked.
Arguments Ok {A} a.
Arguments Err {A} e.
Arguments Blocked {A}.

(** Computations: the events emitted, the file system left, the result. *)
Definition M (A : Type) : Type :=
  filesystem -> list event * filesystem * result A.

Definition ret {A} (a : A) : M A := fun fs => ([], fs, Ok a).

Definition bind {A B} (m : M A) (k : A -> M B) : M B :=
  fun fs =>
    let '(tr, fs1, r) := m fs in
    match r with
    | Ok a => let '(tr2, fs2, r2) := k a fs1 in (tr ++ tr2, fs2, r2)
    | Err e => (tr, fs1, Err e)
    | Blocked => (tr, fs1, Blocked)
    end.

Declare Scope cam_scope.
Delimit Scope cam_scope with cam.
Notation "x <- c1 ;; c2" := (bind c1 (fun x => c2))
  (at level 61, c1 at next level, right associativity) : cam_scope.
Notation "' pat <- c1 ;; c2" :=
  (bind c1 (fun x => match x with pat => c2 end))
  (at level 61, pat pattern, c1 at next level, right associativity)
  : cam_scope.
Notation "c1 ;; c2" := (bind c1 (fun _ => c2))
  (at level 61, right associativity) : cam_scope.
Local Open Scope cam_scope.

Definition raise {A} (e : exn) : M A := fun fs => ([], fs, Err e).
Definition blocked {A} : M A := fun fs => ([], fs, Blocked).
Definition emit (e : event) : M unit := fun fs => ([e], fs, Ok tt).
Definition print (m : message) : M unit := emit (Print m).

(** [try: body / except: handler]; [handler e = None] when no clause
    matches [e].  A blocked body stays blocked. *)
Definition try_except {A} (body : M A) (handler : exn -> option (M A))
  : M A :=
  fun fs =>
    let '(tr, fs1, r) := body fs in
    match r with
    | Err e =>
        match handler e with
        | Some h => let '(tr2, fs2, r2) := h fs1 in (tr ++ tr2, fs2, r2)
        | None => (tr, fs1, Err e)
        end
    | _ => (tr, fs1, r)
    end.

(** Runs [body] and hands its exception, if any, back as a value. *)
Definition attempt {A} (body : M A) : M (A + exn) :=
  fun fs =>
    let '(tr, fs1, r) := body fs in
    match r with
    | Ok a => (tr, fs1, Ok (inl a))
    | Err e => (tr, fs1, Ok (inr e))
    | Blocked => (tr, fs1, Blocked)
    end.

(** Reading a local variable that may not have been assigned. *)
Definition local {A} (name : string) (v : option A) : M A :=
  match v with
  | Some a => ret a
  | None => raise (UnboundLocalError name)
  end.

(** [os.path.exists(path)]: whether the path is there, as a folder or
    as anything else. *)
Definition path_exists (path : string) : M bool :=
  fun fs => ([], fs, Ok (existsb (String.eqb path) (dirs fs))).

(** [os.makedirs(path)] on a path that does not exist, where it
    succeeds.  The parents it makes on the way are not tracked, and the
    runs in which it raises (a parent that is a file, or that cannot be
    written) are outside the model. *)
Definition makedirs (path : string) : M unit :=
  fun fs => ([Makedirs path], mkFs (path :: dirs fs) (files fs), Ok tt).

(** [cv2.imwrite(filename, frame)]: its result is dropped by the program;
    [ok] tells whether the file was written. *)
Definition imwrite (filename : string) (frame : image) (ok : bool) : M unit :=
  fun fs =>
    ([Imwrite filename frame ok],
     if ok then mkFs (dirs fs) (filename :: files fs) else fs,
     Ok tt).

Definition imshow (frame : image) : M unit := emit (Imshow frame).

(** [cv2.waitKey(ms)], returning the scripted key code ([-1]: no key). *)
Definition waitKey (ms : Z) (key : Z) : M Z :=
  emit (WaitKey ms);; ret key.

(** [ord('q')] *)
Definition ord_q : Z := 113.

(** [os.path.join(a, b)] for a relative [b]. *)
Definition path_join (a b : string) : string := a ++ "/" ++ b.

(** Line 23: the session's output folder. *)
Definition session_folder (session_timestamp : string) : string :=
  let base_folder := "captured_frames" in
  path_join base_folder ("session_" ++ session_timestamp).

(** Lines 64 and 111: [f"{output_folder}/frame_{frame_count}_{timestamp}.jpg"] *)
Definition frame_filename (output_folder : string) (frame_count : nat)
  (timestamp : string) : string :=
  output_folder ++ "/frame_" ++ Str.of_nat frame_count ++ "_" ++ timestamp
  ++ ".jpg".

Local Open Scope Z_scope.

(** ** Scripts: what the outside world answers *)

(** One pass of the loop of the continuous capturer: what [cap.read()]
    gives ([None] for [ret = False]), then [time.time()], the formatted
    [datetime.now()], whether [cv2.imwrite] puts the file down, and what
    [cv2.waitKey(1)] returns.  The loop has no handler for Ctrl-C, which
    would leave [capture_stream] at once; these scripts hold the runs in
    which Ctrl-C does not arrive. *)
Record read_step := mkRead {
  rd_frame : option image;
  rd_time : Z;
  rd_stamp : string;
  rd_write_ok : bool;
  rd_key : Z
}.

(** What [requests.get] does: raises a [RequestException], is cut by
    Ctrl-C, or returns a response with its status code and what
    [cv2.imdecode] makes of its body ([None]: no image).  A body on
    which [cv2.imdecode] raises is outside the model. *)
Inductive fetch :=
| FetchError (e : string)
| FetchInterrupt
| Response (status_code : Z) (decoded : option image).

(** One pass of the loop of the snapshot poller; [pl_sleep_interrupt]
    tells whether Ctrl-C arrives during [time.sleep]. *)
Record poll_step := mkPoll {
  pl_fetch : fetch;
  pl_stamp : string;
  pl_write_ok : bool;
  pl_key : Z;
  pl_sleep_interrupt : bool
}.

Record script := mkScript {
  session_timestamp : string;
  is_opened : bool;
  reads : list read_step;
  polls : list poll_step
}.


(** [requests.get(stream_url, timeout=timeout)] *)
Definition requests_get (stream_url : string) (timeout : Z) (f : fetch)
  : M (Z * option image) :=
  emit (Get stream_url timeout);;
  match f with
  | FetchError e => raise (RequestException e)
  | FetchInterrupt => raise KeyboardInterrupt
  | Response status_code decoded => ret (status_code, decoded)
  end.

(** [time.sleep(seconds)]: a negative length is a [ValueError].  The
    model is that of CPython for lengths up to [max_sleep] in magnitude;
    beyond it CPython raises an [OverflowError] instead, which is
    outside the model. *)
Definition sleep (seconds : Z) (interrupted : bool) : M unit :=
  if seconds <? 0 then raise ValueError
  else emit (Sleep seconds);;
       if interrupted then raise KeyboardInterrupt else ret tt.

(** How control leaves the body of a [while True] loop. *)
Inductive control := Next | Break.

(** ** capture_snapshot_stream (camera.py, lines 86-140) *)

Section SnapshotPoller.
Variables (stream_url : string) (interval : Z).
Variables (save_frames show_live : bool) (output_folder : string).

(** Lines 97-130: the inner [try] statement of one pass. *)
Definition poll_attempt (s : poll_step) (frame_count : nat)
  : M (control * nat) :=
  try_except
    (response <- requests_get stream_url 10 (pl_fetch s);;
     let '(status_code, decoded) := response in
     if status_code =? 200 then
       match decoded with
       | Some frame =>
           let frame_count := S frame_count in
           let timestamp := pl_stamp s in
           (if save_frames then
              let filename :=
                frame_filename output_folder frame_count timestamp in
              imwrite filename frame (pl_write_ok s);;
              print (MsgCaptured frame_count timestamp)
            else print (MsgNotSaved frame_count timestamp));;
           if show_live then
             imshow frame;;
             key <- waitKey 100 (pl_key s);;
             if Z.land key 255 =? ord_q then
               print MsgStopping;; ret (Break, frame_count)
             else ret (Next, frame_count)
           else ret (Next, frame_count)
       | None => print MsgDecodeWarning;; ret (Next, frame_count)
       end
     else print (MsgBadStatus status_code);; ret (Next, frame_count))
    (fun e =>
       match e with
       | RequestException msg =>
           Some (print (MsgFetchError msg);; ret (Next, frame_count))
       | _ => None
       end).

(** How the [while True] loop was left. *)
Inductive loop_exit := Broke | Threw (e : exn).

(** Lines 96-134: the loop.  It gives back how it was left together
    with [frame_count] at that point, the value the [except] and
    [finally] clauses around it see. *)
Fixpoint poll_loop (steps : list poll_step) (frame_count : nat)
  : M (loop_exit * nat) :=
  match steps with
  | [] => blocked
  | s :: rest =>
      r <- attempt (poll_attempt s frame_count);;
      match r with
      | inr e => ret (Threw e, frame_count)
      | inl (Break, frame_count) => ret (Broke, frame_count)
      | inl (Next, frame_count) =>
          print (MsgWaiting interval);;
          r <- attempt (sleep interval (pl_sleep_interrupt s));;
          match r with
          | inr e => ret (Threw e, frame_count)
          | inl _ => poll_loop rest frame_count
          end
      end
  end.

Definition capture_snapshot_stream (steps : list poll_step) : M unit :=
  print (MsgEvery interval);;
  print MsgCtrlC;;
  let frame_count := 0%nat in
  '(exit, frame_count) <- poll_loop steps frame_count;;
  (match exit with
   | Threw KeyboardInterrupt => print MsgStopping
   | _ => ret tt
   end);;
  emit DestroyAllWindows;;
  print (MsgTotal frame_count);;
  match exit with
  | Threw KeyboardInterrupt | Broke => ret tt
  | Threw e => raise e
  end.

End SnapshotPoller.

(** ** capture_stream (camera.py, lines 8-84) *)

Section ContinuousCapturer.
Variables (interval : Z) (save_frames show_live : bool).
Variable output_folder : option string.

(** Lines 49-79: the loop, giving back [frame_count] when it breaks. *)
Fixpoint read_loop (steps : list read_step) (last_capture_time : Z)
  (frame_count : nat) : M nat :=
  match steps with
  | [] => blocked
  | s :: rest =>
      emit (Read (rd_frame s));;
      match rd_frame s with
      | None => print MsgReadError;; ret frame_count
      | Some frame =>
          let current_time := rd_time s in
          '(last_capture_time, frame_count) <-
            (if interval <=? current_time - last_capture_time then
               let frame_count := S frame_count in
               let timestamp := rd_stamp s in
               (if save_frames then
                  output_folder <- local "output_folder" output_folder;;
                  let filename :=
                    frame_filename output_folder frame_count timestamp in
                  imwrite filename frame (rd_write_ok s);;
                  print (MsgCaptured frame_count timestamp)
                else print (MsgNotSaved frame_count timestamp));;
               ret (current_time, frame_count)
             else ret (last_capture_time, frame_count));;
          (if show_live then imshow frame else ret tt);;
          key <- waitKey 1 (rd_key s);;
          if Z.land key 255 =? ord_q then
            print MsgStopping;; ret frame_count
          else read_loop rest last_capture_time frame_count
      end
  end.

End ContinuousCapturer.

Definition capture_stream (stream_url : string) (interval : Z)
  (save_frames show_live : bool) (sc : script) : M unit :=
  output_folder <-
    (if save_frames then
       let output_folder := session_folder (session_timestamp sc) in
       there <- path_exists output_folder;;
       (if negb there then makedirs output_folder else ret tt);;
       print (MsgSavedTo output_folder);;
       ret (Some output_folder)
     else ret None);;
  if is_snapshot stream_url then
    print (MsgDetected stream_url);;
    output_folder <- local "output_folder" output_folder;;
    capture_snapshot_stream stream_url interval save_frames show_live
      output_folder (polls sc)
  else
    print (MsgConnecting stream_url);;
    emit (VideoCapture stream_url);;
    if negb (is_opened sc) then print MsgOpenError
    else
      print (MsgEvery interval);;
      let last_capture_time := 0 in
      let frame_count := 0%nat in
      frame_count <-
        read_loop interval save_frames show_live output_folder (reads sc)
          last_capture_time frame_count;;
      emit Release;;
      emit DestroyAllWindows;;
      print (MsgTotal frame_count).

(** ** Observing a run *)

Definition trace {A} (x : list event * filesystem * result A) : list event :=
  fst (fst x).
Definition final_fs {A} (x : list event * filesystem * result A)
  : filesystem := snd (fst x).
Definition outcome {A} (x : list event * filesystem * result A) : result A :=
  snd x.

(** [l] put in front of the events of a run. *)
Definition prepend {A} (l : list event)
  (x : list event * filesystem * result A) : list event * filesystem * result A :=
  (l ++ trace x, final_fs x, outcome x).

(** The sequence number a line reports a capture under, if it does. *)
Definition capture_seq (e : event) : option nat :=
  match e with
  | Print (MsgCaptured n _) | Print (MsgNotSaved n _) => Some n
  | _ => None
  end.

Definition is_capture (e : event) : bool :=
  match capture_seq e with Some _ => true | None => false end.

(** The sequence numbers of the captures a run reports, in order. *)
Fixpoint capture_seqs (tr : list event) : list nat :=
  match tr with
  | [] => []
  | e :: tr' =>
      match capture_seq e with
      | Some n => n :: capture_seqs tr'
      | None => capture_seqs tr'
      end
  end.

Definition is_makedirs (e : event) : bool :=
  match e with Makedirs _ => true | _ => false end.
Definition is_imwrite (e : event) : bool :=
  match e with Imwrite _ _ _ => true | _ => false end.
Definition is_waitkey (e : event) : bool :=
  match e with WaitKey _ => true | _ => false end.
Definition is_get (e : event) : bool :=
  match e with Get _ _ => true | _ => false end.
Definition is_read (e : event) : bool :=
  match e with Read _ => true | _ => false end.
Definition is_sleep (e : event) : bool :=
  match e with Sleep _ => true | _ => false end.

(** How often an event of a kind occurs in a run. *)
Definition count (p : event -> bool) (tr : list event) : nat :=
  length (filter p tr).

(** The totals a run reports ([Total frames captured: n]), in order. *)
Fixpoint totals (tr : list event) : list nat :=
  match tr with
  | [] => []
  | Print (MsgTotal n) :: tr' => n :: totals tr'
  | _ :: tr' => totals tr'
  end.

(** An event that is neither a [cap.read()] nor the report of a capture. *)
Definition quiet (e : event) : bool := negb (is_read e) && negb (is_capture e).

(** A pass of the read loop that reads a frame and is not asked to quit. *)
Definition flowing (p : read_step) : Prop :=
  rd_frame p <> None /\ Z.land (rd_key p) 255 <> ord_q.

(** A pass of the snapshot loop that ends in one of the three failures:
    the request raises, the status is not 200, or the body does not
    decode. *)
Definition failed_fetch (f : fetch) : bool :=
  match f with
  | FetchError _ => true
  | FetchInterrupt => false
  | Response status_code decoded =>
      negb (status_code =? 200)
      || match decoded with None => true | Some _ => false end
  end.

(** Whether a capture is reported before the next [cap.read()]. *)
Fixpoint captured_before_read (tr : list event) : bool :=
  match tr with
  | [] => false
  | Read _ :: _ => false
  | e :: tr' => is_capture e || captured_before_read tr'
  end.

(** For every frame read, in order, whether it was captured: the pass
    that starts at a successful [cap.read()] reports a capture. *)
Fixpoint capture_flags (tr : list event) : list bool :=
  match tr with
  | [] => []
  | Read (Some _) :: tr' => captured_before_read tr' :: capture_flags tr'
  | _ :: tr' => capture_flags tr'
  end.

(** [time.time()] at the latest capture among the frames flagged so far,
    [init] when there is none. *)
Fixpoint last_captured (init : Z) (flags : list bool) (times : list Z) : Z :=
  match flags, times with
  | b :: flags', t :: times' =>
      last_captured (if b then t else init) flags' times'
  | _, _ => init
  end.

(** The timestamp the [i]-th frame is compared with: that of the latest
    capture among the frames before it, [init] when there is none. *)
Definition previous_capture (init : Z) (flags : list bool) (times : list Z)
  (i : nat) : Z :=
  last_captured init (firstn i flags) (firstn i times).

(** Whether some frame before the [i]-th was captured. *)
Definition captured_earlier (flags : list bool) (i : nat) : bool :=
  existsb (fun b => b) (firstn i flags).

(** ** The classifier as the specification words it *)

(** The text of [s] before its first character in [stop]. *)
Fixpoint before (stop : ascii -> bool) (s : string) : string :=
  match s with
  | EmptyString => EmptyString
  | String c s' => if stop c then EmptyString else String c (before stop s')
  end.

(** What follows the first [://] of [s]. *)
Fixpoint after_scheme (s : string) : option string :=
  match s with
  | EmptyString => None
  | String _ s' =>
      if Str.startswith s "://" then Some (String.substring 3 (String.length s) s)
      else after_scheme s'
  end.

(** [s] from its first [/] on. *)
Fixpoint from_slash (s : string) : string :=
  match s with
  | EmptyString => EmptyString
  | String c s' => if Ascii.eqb c "/" then s else from_slash s'
  end.

(** The path of an address as RFC 3986 has it: what stands after the
    scheme and the authority, up to the query [?] or the fragment [#]. *)
Definition url_path (address : string) : string :=
  let hier :=
    before (fun c => Ascii.eqb c "?" || Ascii.eqb c "#") address in
  match after_scheme hier with
  | Some rest => from_slash rest
  | None => hier
  end.

(** The rule in the specification's words: the address's path ends in
    [.jpg], or the address contains [snap] in any letter case. *)
Definition snapshot_by_path (address : string) : bool :=
  Str.endswith (url_path address) ".jpg"
  || Str.contains "snap" (Str.lower address).

(** ** The program run as a script (camera.py, lines 142-151) *)

Definition STREAM_URL : string :=
  "http://124.155.121.218:3000/webcapture.jpg?command=snap&channel=1?1759354033".

(** The call under [if __name__ == "__main__":]. *)
Definition main (sc : script) : M unit :=
  capture_stream STREAM_URL 30 true true sc.

(** ** More to read off a run *)

Definition is_imshow (e : event) : bool :=
  match e with Imshow _ => true | _ => false end.
Definition is_release (e : event) : bool :=
  match e with Release => true | _ => false end.
Definition is_destroy (e : event) : bool :=
  match e with DestroyAllWindows => true | _ => false end.
Definition is_video_capture (e : event) : bool :=
  match e with VideoCapture _ => true | _ => false end.

(** The frames [cap.read()] gave, in order. *)
Fixpoint frames_read (tr : list event) : list image :=
  match tr with
  | [] => []
  | Read (Some f) :: tr' => f :: frames_read tr'
  | _ :: tr' => frames_read tr'
  end.

(** The frames handed to [cv2.imshow], in order. *)
Fixpoint shown (tr : list event) : list image :=
  match tr with
  | [] => []
  | Imshow f :: tr' => f :: shown tr'
  | _ :: tr' => shown tr'
  end.

(** The file names handed to [cv2.imwrite], in order. *)
Fixpoint imwrite_names (tr : list event) : list string :=
  match tr with
  | [] => []
  | Imwrite filename _ _ :: tr' => filename :: imwrite_names tr'
  | _ :: tr' => imwrite_names tr'
  end.

(** The names of the files [cv2.imwrite] did put down, in order. *)
Fixpoint written (tr : list event) : list string :=
  match tr with
  | [] => []
  | Imwrite filename _ true :: tr' => filename :: written tr'
  | _ :: tr' => written tr'
  end.

(** The requests and sleeps of a run, in order. *)
Definition cadence (tr : list event) : list event :=
  filter (fun e => is_get e || is_sleep e) tr.

(** [n] rounds of one request and one sleep. *)
Fixpoint rounds (stream_url : string) (interval : Z) (n : nat) : list event :=
  match n with
  | O => []
  | S n' => Get stream_url 10 :: Sleep interval :: rounds stream_url interval n'
  end.


(** Whether Ctrl-C arrives during a pass of the snapshot loop. *)
Definition interrupted (p : poll_step) : bool :=
  match pl_fetch p with
  | FetchInterrupt => true
  | _ => pl_sleep_interrupt p
  end.

(** A decimal digit. *)
Definition is_digit (c : ascii) : bool :=
  let n := nat_of_ascii c in (48 <=? n)%nat && (n <=? 57)%nat.

(** Whether every character of [s] satisfies [p]. *)
Fixpoint all_chars (p : ascii -> bool) (s : string) : bool :=
  match s with
  | EmptyString => true
  | String c s' => p c && all_chars p s'
  end.

(** What a loop that starts at [frame_count = fc] may call a file:
    a name of folder [d] with a sequence number above [fc]. *)
Definition names_above (d : string) (fc : nat) (names : list string) : Prop :=
  Forall (fun name => exists n t,
              (fc < n)%nat /\ name = frame_filename d n t) names.

(** What [capture_stream] does before it enters a loop: it prints, makes
    the session folder and opens the stream. *)
Definition is_setup (e : event) : bool :=
  match e with
  | Print (MsgSavedTo _) | Print (MsgConnecting _) | Print (MsgEvery _)
  | Makedirs _ | VideoCapture _ => true
  | _ => false
  end.

(** The captures a run reports, in order: the sequence number and the
    time stamp of each [Captured frame ...] or [Frame ... captured ...]
    line. *)
Fixpoint capture_lines (tr : list event) : list (nat * string) :=
  match tr with
  | [] => []
  | Print (MsgCaptured n t) :: tr' => (n, t) :: capture_lines tr'
  | Print (MsgNotSaved n t) :: tr' => (n, t) :: capture_lines tr'
  | _ :: tr' => capture_lines tr'
  end.

(** A pass of the snapshot loop whose request comes back with status
    200 and a body that decodes to an image. *)
Definition good_response (p : poll_step) : bool :=
  match pl_fetch p with
  | Response status_code (Some _) => status_code =? 200
  | _ => false
  end.

(** * Properties *)

(** ** Strings *)

Module StrFacts.
Import Str.

Lemma startswith_spec (p s : string) :
  startswith s p = true <-> exists post, s = (p ++ post)%string.
Proof.
  revert s; induction p as [|a p IH]; intros s; simpl.
  - split; [intros _; now exists s | reflexivity].
  - destruct s as [|b s].
    + split; [discriminate | intros [post H]; discriminate].
    + rewrite andb_true_iff, Ascii.eqb_eq, IH. split.
      * intros [-> [post ->]]. now exists post.
      * intros [post H]. injection H as -> ->. split; [reflexivity | now exists post].
Qed.

Lemma endswith_spec (suf s : string) :
  endswith s suf = true <-> exists pre, s = (pre ++ suf)%string.
Proof.
  split.
  - induction s as [|c s IH]; cbn [endswith]; rewrite orb_true_iff.
    + intros [H | H]; [|discriminate].
      apply String.eqb_eq in H. now exists EmptyString.
    + intros [H | H].
      * apply String.eqb_eq in H. now exists EmptyString.
      * destruct (IH H) as [pre ->]. now exists (String c pre).
  - intros [pre ->]. induction pre as [|c pre IH].
    + cbn [append]. destruct suf; cbn [endswith];
        rewrite String.eqb_refl; reflexivity.
    + cbn [append endswith]. rewrite IH. apply orb_true_r.
Qed.

Lemma contains_spec (needle s : string) :
  contains needle s = true <->
  exists pre post, s = (pre ++ needle ++ post)%string.
Proof.
  split.
  - induction s as [|c s IH]; simpl; rewrite orb_true_iff.
    + intros [H | H]; [|discriminate].
      apply startswith_spec in H as [post H]. now exists EmptyString, post.
    + intros [H | H].
      * apply startswith_spec in H as [post H]. now exists EmptyString, post.
      * destruct (IH H) as (pre & post & ->). now exists (String c pre), post.
  - intros (pre & post & ->). induction pre as [|c pre IH].
    + assert (H : startswith (needle ++ post) needle = true)
        by (apply startswith_spec; now exists post).
      simpl. destruct (needle ++ post)%string; simpl in *; rewrite H; reflexivity.
    + simpl. rewrite IH. apply orb_true_r.
Qed.

Lemma lower_app (a b : string) :
  lower (a ++ b) = (lower a ++ lower b)%string.
Proof. induction a as [|c a IH]; simpl; [reflexivity | now rewrite IH]. Qed.

(** A split of [lower s] comes from a split of [s]. *)
Lemma lower_split (s a b : string) :
  lower s = (a ++ b)%string ->
  exists a' b', s = (a' ++ b')%string /\ lower a' = a /\ lower b' = b.
Proof.
  revert s; induction a as [|c a IH]; intros s H.
  - exists EmptyString, s. auto.
  - destruct s as [|d s]; [discriminate|].
    simpl in H. injection H as Hc Hs.
    destruct (IH _ Hs) as (a' & b' & -> & Ha & Hb).
    exists (String d a'), b'. simpl. now rewrite Hc, Ha.
Qed.

(** [needle in s.lower()] says that [s] holds a piece that lowers to
    [needle]. *)
Lemma contains_lower_spec (needle s : string) :
  contains needle (lower s) = true <->
  exists pre w post,
    s = (pre ++ w ++ post)%string /\ lower w = needle.
Proof.
  rewrite contains_spec. split.
  - intros (pre & post & H).
    apply lower_split in H as (pre' & r & -> & _ & H).
    apply lower_split in H as (w & post' & -> & Hw & _).
    now exists pre', w, post'.
  - intros (pre & w & post & -> & <-).
    exists (lower pre), (lower post). now rewrite !lower_app.
Qed.

End StrFacts.

(** ** The source classifier *)

Lemma is_snapshot_spec (stream_url : string) :
  is_snapshot stream_url = true <->
  (exists pre, stream_url = (pre ++ ".jpg")%string) \/
  (exists pre w post,
      stream_url = (pre ++ w ++ post)%string /\ Str.lower w = "snap"%string).
Proof.
  unfold is_snapshot.
  now rewrite orb_true_iff, StrFacts.endswith_spec,
    StrFacts.contains_lower_spec.
Qed.

(** C2, as the specification words it, fails: the path of
    [http://h/a.jpg?x=1] is [/a.jpg], which ends in [.jpg], yet the
    address is classified as a continuous stream, because the program
    matches the suffix against the whole address. *)
Lemma classify_by_path_fails :
  url_path "http://h/a.jpg?x=1" = "/a.jpg"%string /\
  ~ (classify "http://h/a.jpg?x=1" = Snapshot <->
     Str.endswith (url_path "http://h/a.jpg?x=1") ".jpg" = true \/
     Str.contains "snap" (Str.lower "http://h/a.jpg?x=1") = true).
Proof.
  split; [reflexivity|].
  intros [_ H].
  assert (E : classify "http://h/a.jpg?x=1" = Snapshot)
    by (apply H; left; reflexivity).
  discriminate E.
Qed.

(** C2, amended: an address is classified [Snapshot] exactly when the
    whole address string ends in [.jpg] (case-sensitive) or contains a
    piece that is [snap] in some letter case; otherwise it is classified
    [ContinuousStream].  [http://h/webcapture.jpg?command=snap] is a
    snapshot address and [rtsp://h/live] a continuous stream. *)
Theorem classify_correct :
  (forall stream_url,
      classify stream_url = Snapshot <->
      (exists pre, stream_url = (pre ++ ".jpg")%string) \/
      (exists pre w post,
          stream_url = (pre ++ w ++ post)%string /\
          Str.lower w = "snap"%string)) /\
  (forall stream_url,
      classify stream_url = ContinuousStream <->
      classify stream_url <> Snapshot) /\
  classify "http://h/webcapture.jpg?command=snap" = Snapshot /\
  classify "rtsp://h/live" = ContinuousStream.
Proof.
  split; [|split; [|split; reflexivity]].
  - intros u. rewrite <- is_snapshot_spec. unfold classify.
    destruct (is_snapshot u); split; congruence.
  - intros u. unfold classify. destruct (is_snapshot u); split; congruence.
Qed.

(** ** The monad's equations *)

Lemma trace_prepend {A} l (x : list event * filesystem * result A) :
  trace (prepend l x) = l ++ trace x.
Proof. reflexivity. Qed.

Lemma final_fs_prepend {A} l (x : list event * filesystem * result A) :
  final_fs (prepend l x) = final_fs x.
Proof. reflexivity. Qed.

Lemma outcome_prepend {A} l (x : list event * filesystem * result A) :
  outcome (prepend l x) = outcome x.
Proof. reflexivity. Qed.

Lemma prepend_nil {A} (x : list event * filesystem * result A) :
  prepend [] x = x.
Proof. destruct x as [[tr fs] r]. reflexivity. Qed.

Lemma prepend_prepend {A} l1 l2 (x : list event * filesystem * result A) :
  prepend l1 (prepend l2 x) = prepend (l1 ++ l2) x.
Proof. unfold prepend; cbn. now rewrite app_assoc. Qed.

Lemma bind_ret {A B} (a : A) (k : A -> M B) fs : bind (ret a) k fs = k a fs.
Proof. unfold bind, ret. destruct (k a fs) as [[tr f] r]. reflexivity. Qed.

Lemma bind_emit {B} (e : event) (k : unit -> M B) fs :
  bind (emit e) k fs = prepend [e] (k tt fs).
Proof.
  unfold bind, emit, prepend, trace, final_fs, outcome.
  destruct (k tt fs) as [[tr f] r]. reflexivity.
Qed.

Lemma bind_assoc {A B C} (m : M A) (k : A -> M B) (h : B -> M C) fs :
  bind (bind m k) h fs = bind m (fun a => bind (k a) h) fs.
Proof.
  unfold bind. destruct (m fs) as [[tr1 fs1] [a|e|]]; try reflexivity.
  destruct (k a fs1) as [[tr2 fs2] [b|e|]]; try reflexivity.
  destruct (h b fs2) as [[tr3 fs3] r3]. now rewrite app_assoc.
Qed.

Lemma bind_imwrite {B} filename frame ok (k : unit -> M B) fs :
  bind (imwrite filename frame ok) k fs =
  prepend [Imwrite filename frame ok]
    (k tt (if ok then mkFs (dirs fs) (filename :: files fs) else fs)).
Proof.
  unfold bind, imwrite, prepend, trace, final_fs, outcome.
  destruct (k tt _) as [[tr f] r]. reflexivity.
Qed.

(** Runs the straight-line head of a computation. *)
Ltac msimpl :=
  unfold print, imshow, waitKey;
  repeat first
    [ rewrite bind_assoc | rewrite bind_ret | rewrite bind_emit
    | rewrite bind_imwrite | rewrite prepend_prepend ];
  cbn [app].

Section ReadLoopSteps.
Variables (interval : Z) (save_frames show_live : bool).
Variable output_folder : option string.
Local Abbreviation loop :=
  (read_loop interval save_frames show_live output_folder).

(** What follows the capture decision of a pass: the frame is shown,
    the key is polled, and the loop breaks on [q] or goes on. *)
Lemma read_loop_step s rest last fc fs :
  loop (s :: rest) last fc fs =
  match rd_frame s with
  | None => ([Read None; Print MsgReadError], fs, Ok fc)
  | Some frame =>
      let go last' fc' fs' :=
        prepend ((if show_live then [Imshow frame] else []) ++ [WaitKey 1])
          (if Z.land (rd_key s) 255 =? ord_q
           then ([Print MsgStopping], fs', Ok fc')
           else loop rest last' fc' fs') in
      if interval <=? rd_time s - last then
        if save_frames then
          match output_folder with
          | None =>
              ([Read (Some frame)], fs,
               Err (UnboundLocalError "output_folder"))
          | Some d =>
              let filename := frame_filename d (S fc) (rd_stamp s) in
              prepend [Read (Some frame);
                       Imwrite filename frame (rd_write_ok s);
                       Print (MsgCaptured (S fc) (rd_stamp s))]
                (go (rd_time s) (S fc)
                   (if rd_write_ok s
                    then mkFs (dirs fs) (filename :: files fs) else fs))
          end
        else
          prepend [Read (Some frame);
                   Print (MsgNotSaved (S fc) (rd_stamp s))]
            (go (rd_time s) (S fc) fs)
      else prepend [Read (Some frame)] (go last fc fs)
  end.
Proof.
  cbn [read_loop]. rewrite bind_emit.
  destruct (rd_frame s) as [frame|]; [|now msimpl].
  assert (G : forall last' fc' fs',
    bind (if show_live then imshow frame else ret tt)
      (fun _ => bind (waitKey 1 (rd_key s)) (fun key =>
         if Z.land key 255 =? ord_q
         then bind (print MsgStopping) (fun _ => ret fc')
         else loop rest last' fc')) fs' =
    prepend ((if show_live then [Imshow frame] else []) ++ [WaitKey 1])
      (if Z.land (rd_key s) 255 =? ord_q
       then ([Print MsgStopping], fs', Ok fc')
       else loop rest last' fc' fs')).
  { intros. destruct show_live; msimpl;
      destruct (Z.land (rd_key s) 255 =? ord_q); now msimpl. }
  cbv zeta.
  destruct (interval <=? rd_time s - last).
  - destruct save_frames.
    + destruct output_folder as [d|]; cbn [local]; [|reflexivity].
      msimpl. rewrite G. now msimpl.
    + msimpl. rewrite G. now msimpl.
  - msimpl. rewrite G. reflexivity.
Qed.
End ReadLoopSteps.

Section PollLoopSteps.
Variables (stream_url : string) (interval : Z).
Variables (save_frames show_live : bool) (output_folder : string).
Local Abbreviation ploop :=
  (poll_loop stream_url interval save_frames show_live output_folder).

(** One pass of the snapshot loop, case by case. *)
Lemma poll_loop_step s rest fc fs :
  ploop (s :: rest) fc fs =
  let wait fc' fs' :=
    if interval <? 0
    then ([Print (MsgWaiting interval)], fs', Ok (Threw ValueError, fc'))
    else prepend [Print (MsgWaiting interval); Sleep interval]
           (if pl_sleep_interrupt s
            then ([], fs', Ok (Threw KeyboardInterrupt, fc'))
            else ploop rest fc' fs') in
  match pl_fetch s with
  | FetchInterrupt =>
      ([Get stream_url 10], fs, Ok (Threw KeyboardInterrupt, fc))
  | FetchError e =>
      prepend [Get stream_url 10; Print (MsgFetchError e)] (wait fc fs)
  | Response status_code decoded =>
      if status_code =? 200 then
        match decoded with
        | None =>
            prepend [Get stream_url 10; Print MsgDecodeWarning] (wait fc fs)
        | Some frame =>
            let filename :=
              frame_filename output_folder (S fc) (pl_stamp s) in
            let sink :=
              if save_frames
              then [Imwrite filename frame (pl_write_ok s);
                    Print (MsgCaptured (S fc) (pl_stamp s))]
              else [Print (MsgNotSaved (S fc) (pl_stamp s))] in
            let fs' :=
              if save_frames && pl_write_ok s
              then mkFs (dirs fs) (filename :: files fs) else fs in
            if show_live then
              if Z.land (pl_key s) 255 =? ord_q
              then (Get stream_url 10 :: sink
                      ++ [Imshow frame; WaitKey 100; Print MsgStopping],
                    fs', Ok (Broke, S fc))
              else prepend (Get stream_url 10 :: sink
                              ++ [Imshow frame; WaitKey 100])
                     (wait (S fc) fs')
            else prepend (Get stream_url 10 :: sink) (wait (S fc) fs')
        end
      else
        prepend [Get stream_url 10; Print (MsgBadStatus status_code)]
          (wait fc fs)
  end.
Proof.
  cbn [poll_loop]. cbv zeta.
  unfold poll_attempt, requests_get, sleep, attempt, try_except, bind,
    imwrite, imshow, waitKey, print, emit, raise, ret, prepend, trace,
    final_fs, outcome, bind.
  destruct (pl_fetch s) as [e| |status_code [frame|]]; cbn [app fst snd];
    try destruct (status_code =? 200); cbn [app fst snd];
    try reflexivity;
    try destruct save_frames; try destruct (pl_write_ok s);
    try destruct show_live; cbn [app fst snd andb];
    try destruct (Z.land (pl_key s) 255 =? ord_q); cbn [app fst snd];
    try reflexivity;
    destruct (interval <? 0); cbn [app fst snd]; try reflexivity;
    destruct (pl_sleep_interrupt s); cbn [app fst snd]; try reflexivity;
    match goal with
    | |- context [poll_loop ?u ?i ?sv ?sh ?o rest ?a ?b] =>
        destruct (poll_loop u i sv sh o rest a b) as [[? ?] [[? ?]| |]]
    end; reflexivity.
Qed.
End PollLoopSteps.

(** ** The two entry points, in terms of their loops *)

(** Lines 136-140: what the [except] and [finally] clauses add to the
    run of the loop. *)
Lemma capture_snapshot_stream_eq stream_url interval save_frames show_live
  output_folder steps fs :
  capture_snapshot_stream stream_url interval save_frames show_live
    output_folder steps fs =
  let x := poll_loop stream_url interval save_frames show_live output_folder
             steps 0 fs in
  prepend [Print (MsgEvery interval); Print MsgCtrlC]
    match outcome x with
    | Ok (Broke, n) =>
        (trace x ++ [DestroyAllWindows; Print (MsgTotal n)], final_fs x,
         Ok tt)
    | Ok (Threw KeyboardInterrupt, n) =>
        (trace x ++ [Print MsgStopping; DestroyAllWindows;
                     Print (MsgTotal n)], final_fs x, Ok tt)
    | Ok (Threw e, n) =>
        (trace x ++ [DestroyAllWindows; Print (MsgTotal n)], final_fs x,
         Err e)
    | Err e => (trace x, final_fs x, Err e)
    | Blocked => (trace x, final_fs x, Blocked)
    end.
Proof.
  unfold capture_snapshot_stream. msimpl. cbv zeta.
  unfold bind, print, emit, raise, ret, prepend, trace, final_fs, outcome.
  destruct (poll_loop _ _ _ _ _ steps 0%nat fs)
    as [[tr fs1] [[[|[]] n]|e|]]; cbn [fst snd app];
    rewrite ?app_nil_r; reflexivity.
Qed.

(** Lines 20-84. *)
Lemma capture_stream_eq stream_url interval save_frames show_live sc fs :
  capture_stream stream_url interval save_frames show_live sc fs =
  let d := session_folder (session_timestamp sc) in
  let there := existsb (String.eqb d) (dirs fs) in
  let setup :=
    if save_frames
    then (if there then [] else [Makedirs d]) ++ [Print (MsgSavedTo d)]
    else [] in
  let fs1 :=
    if save_frames && negb there then mkFs (d :: dirs fs) (files fs)
    else fs in
  prepend setup
    (if is_snapshot stream_url then
       if save_frames then
         prepend [Print (MsgDetected stream_url)]
           (capture_snapshot_stream stream_url interval save_frames
              show_live d (polls sc) fs1)
       else
         ([Print (MsgDetected stream_url)], fs1,
          Err (UnboundLocalError "output_folder"))
     else
       if is_opened sc then
         let x := read_loop interval save_frames show_live
                    (if save_frames then Some d else None) (reads sc) 0 0
                    fs1 in
         prepend [Print (MsgConnecting stream_url); VideoCapture stream_url;
                  Print (MsgEvery interval)]
           match outcome x with
           | Ok n =>
               (trace x ++ [Release; DestroyAllWindows; Print (MsgTotal n)],
                final_fs x, Ok tt)
           | Err e => (trace x, final_fs x, Err e)
           | Blocked => (trace x, final_fs x, Blocked)
           end
       else
         ([Print (MsgConnecting stream_url); VideoCapture stream_url;
           Print MsgOpenError], fs1, Ok tt)).
Proof.
  unfold capture_stream, path_exists, makedirs, local, print, emit, raise,
    ret, bind, prepend, trace, final_fs, outcome.
  cbv zeta.
  destruct save_frames, (existsb _ (dirs fs)), (is_snapshot stream_url),
    (is_opened sc); cbn [negb andb app fst snd];
    try match goal with
      | |- context [capture_snapshot_stream ?a ?b ?c ?d ?e ?f ?g] =>
          destruct (capture_snapshot_stream a b c d e f g) as [[? ?] ?]
      | |- context [read_loop ?a ?b ?c ?d ?e ?f ?g ?h] =>
          destruct (read_loop a b c d e f g h) as [[? ?] [?| |]]
      end;
    cbn [app fst snd]; rewrite ?app_nil_r; try reflexivity.
Qed.

(** ** Two runs, event by event *)

(** A continuous run with saving off: the frame at time 100 is captured,
    the one at 110 is only shown, the one at 131 is captured, and [q]
    ends the run. *)
Example continuous_run :
  capture_stream "rtsp://h/live" 30 false true
    (mkScript "2024-01-02_03-04-05" true
       [mkRead (Some 1%nat) 100 "2024-01-02_03-04-06" true (-1);
        mkRead (Some 2%nat) 110 "2024-01-02_03-04-16" true (-1);
        mkRead (Some 3%nat) 131 "2024-01-02_03-04-37" true 113;
        mkRead (Some 4%nat) 170 "2024-01-02_03-05-16" true (-1)] [])
    (mkFs [] []) =
  ([Print (MsgConnecting "rtsp://h/live"); VideoCapture "rtsp://h/live";
    Print (MsgEvery 30);
    Read (Some 1%nat); Print (MsgNotSaved 1 "2024-01-02_03-04-06");
    Imshow 1%nat; WaitKey 1;
    Read (Some 2%nat); Imshow 2%nat; WaitKey 1;
    Read (Some 3%nat); Print (MsgNotSaved 2 "2024-01-02_03-04-37");
    Imshow 3%nat; WaitKey 1; Print MsgStopping;
    Release; DestroyAllWindows; Print (MsgTotal 2)],
   mkFs [] [], Ok tt).
Proof. reflexivity. Qed.

(** A snapshot run with saving on: the second write fails and the
    third capture still gets number 3; Ctrl-C during the third sleep
    ends the run. *)
Example snapshot_run :
  capture_stream "http://h/snap" 30 true false
    (mkScript "S" true []
       [mkPoll (Response 200 (Some 1%nat)) "a" true (-1) false;
        mkPoll (Response 200 (Some 2%nat)) "b" false (-1) false;
        mkPoll (Response 200 (Some 3%nat)) "c" true (-1) true])
    (mkFs ["captured_frames/session_S"%string] []) =
  ([Print (MsgSavedTo "captured_frames/session_S");
    Print (MsgDetected "http://h/snap"); Print (MsgEvery 30); Print MsgCtrlC;
    Get "http://h/snap" 10;
    Imwrite "captured_frames/session_S/frame_1_a.jpg" 1%nat true;
    Print (MsgCaptured 1 "a"); Print (MsgWaiting 30); Sleep 30;
    Get "http://h/snap" 10;
    Imwrite "captured_frames/session_S/frame_2_b.jpg" 2%nat false;
    Print (MsgCaptured 2 "b"); Print (MsgWaiting 30); Sleep 30;
    Get "http://h/snap" 10;
    Imwrite "captured_frames/session_S/frame_3_c.jpg" 3%nat true;
    Print (MsgCaptured 3 "c"); Print (MsgWaiting 30); Sleep 30;
    Print MsgStopping; DestroyAllWindows; Print (MsgTotal 3)],
   mkFs ["captured_frames/session_S"%string]
     ["captured_frames/session_S/frame_3_c.jpg"%string;
      "captured_frames/session_S/frame_1_a.jpg"%string],
   Ok tt).
Proof. reflexivity. Qed.

Example render_total :
  render (MsgTotal 12) = (nl ++ "Total frames captured: 12")%string.
Proof. reflexivity. Qed.

(** ** Reading traces *)

Lemma capture_seqs_app l1 l2 :
  capture_seqs (l1 ++ l2) = capture_seqs l1 ++ capture_seqs l2.
Proof.
  induction l1 as [|e l1 IH]; [reflexivity|].
  cbn [app capture_seqs]. destruct (capture_seq e); cbn [app]; now rewrite IH.
Qed.

Lemma count_app p l1 l2 : count p (l1 ++ l2) = (count p l1 + count p l2)%nat.
Proof. unfold count. now rewrite filter_app, length_app. Qed.

(** Unfolds a run into its events, file system and result. *)
Ltac observe :=
  cbv zeta;
  rewrite ?prepend_prepend;
  cbn [prepend trace final_fs outcome fst snd app] in *.

(** Case analysis on everything a pass of the read loop looks at. *)
Ltac read_cases s :=
  rewrite read_loop_step; cbv zeta;
  destruct (rd_frame s) as [?frame|];
  [ destruct (_ <=? rd_time s - _) eqn:?Hdue;
    [ match goal with
      | |- context [if ?save then _ else _] =>
          is_var save; destruct save
      | _ => idtac
      end
    | ];
    try match goal with
      | |- context [match ?o with Some _ => _ | None => _ end] =>
          is_var o; destruct o as [?d|]
      end;
    try match goal with
      | |- context [Z.land (rd_key s) 255 =? ord_q] =>
          destruct (Z.land (rd_key s) 255 =? ord_q) eqn:?Hquit
      end
  | ].

Section ReadLoopFacts.
Variables (interval : Z) (save_frames show_live : bool).
Variable output_folder : option string.
Local Abbreviation loop :=
  (read_loop interval save_frames show_live output_folder).

(** The captures of the loop are numbered from [frame_count + 1] on,
    and the count the loop leaves with is the last number given. *)
Lemma read_loop_seqs steps : forall last fc fs,
  let x := loop steps last fc fs in
  capture_seqs (trace x) = seq (S fc) (length (capture_seqs (trace x))) /\
  forall n, outcome x = Ok n ->
            n = (fc + length (capture_seqs (trace x)))%nat.
Proof.
  induction steps as [|s rest IH]; intros last fc fs; cbv zeta.
  - cbn. split; [reflexivity | discriminate].
  - read_cases s.
    all: rewrite ?trace_prepend, ?outcome_prepend, ?capture_seqs_app.
    all: try match goal with
         | |- context [read_loop ?i ?sv ?sh ?o ?r ?a ?b ?c] =>
             specialize (IH a b c); cbv zeta in IH;
             destruct IH as [IH1 IH2];
             destruct (read_loop i sv sh o r a b c) as [[tr2 fs2] r2]
         end.
    all: destruct show_live; cbn [trace outcome fst snd app capture_seqs
           capture_seq length seq] in *.
    all: split; [try (f_equal; assumption); try reflexivity
                | intros n Hn; try (injection Hn as <-);
                  try discriminate; try (apply IH2 in Hn); lia].
Qed.
End ReadLoopFacts.

(** Case analysis on everything a pass of the snapshot loop looks at. *)
Ltac poll_cases s :=
  rewrite poll_loop_step; cbv zeta;
  destruct (pl_fetch s) as [?e| |?status_code [?frame|]];
  try match goal with
    | |- context [?c =? 200] => destruct (c =? 200) eqn:?Hstatus
    end;
  try match goal with
    | |- context [if ?save && _ then _ else _] => is_var save; destruct save
    end;
  cbn [andb];
  try match goal with
    | |- context [if ?show then _ else _] => is_var show; destruct show
    end;
  try match goal with
    | |- context [if pl_write_ok s then _ else _] => destruct (pl_write_ok s)
    end;
  try match goal with
    | |- context [Z.land (pl_key s) 255 =? ord_q] =>
        destruct (Z.land (pl_key s) 255 =? ord_q) eqn:?Hquit
    end;
  try match goal with
    | |- context [?i <? 0] => destruct (i <? 0) eqn:?Hneg
    end;
  try match goal with
    | |- context [if pl_sleep_interrupt s then _ else _] =>
        destruct (pl_sleep_interrupt s) eqn:?Hint
    end;
  cbn [andb].

(** Names the run of the rest of the snapshot loop and takes the
    induction hypothesis at its state. *)
Ltac poll_rest IH :=
  try match goal with
    | |- context [poll_loop ?u ?i ?sv ?sh ?o ?r ?a ?b] =>
        specialize (IH a b); cbv zeta in IH;
        destruct (poll_loop u i sv sh o r a b) as [[?tr ?fs] [[?ex ?n]|?e|]]
    end.

Section PollLoopFacts.
Variables (stream_url : string) (interval : Z).
Variables (save_frames show_live : bool) (output_folder : string).
Local Abbreviation ploop :=
  (poll_loop stream_url interval save_frames show_live output_folder).

(** The loop never lets an exception through: it hands it back. *)
Lemma poll_loop_no_err steps : forall fc fs e,
  outcome (ploop steps fc fs) <> Err e.
Proof.
  induction steps as [|s rest IH]; intros fc fs e'; [discriminate|].
  poll_cases s; rewrite ?outcome_prepend; try apply IH;
    cbn [outcome snd]; discriminate.
Qed.

Lemma poll_loop_seqs steps : forall fc fs,
  let x := ploop steps fc fs in
  capture_seqs (trace x) = seq (S fc) (length (capture_seqs (trace x))) /\
  forall ex n, outcome x = Ok (ex, n) ->
               n = (fc + length (capture_seqs (trace x)))%nat.
Proof.
  induction steps as [|s rest IH]; intros fc fs; cbv zeta.
  - cbn. split; [reflexivity | discriminate].
  - poll_cases s.
    all: rewrite ?trace_prepend, ?outcome_prepend, ?capture_seqs_app.
    all: poll_rest IH.
    all: cbn [trace outcome fst snd app capture_seqs capture_seq length
              seq] in *.
    all: rewrite ?capture_seqs_app;
      cbn [trace outcome fst snd app capture_seqs capture_seq length
              seq] in *.
    all: try destruct IH as [IH1 IH2].
    all: split; [try (f_equal; assumption); try reflexivity
                | intros ex' n' Hn;
                  first [ apply IH2 in Hn; lia
                        | injection Hn as <- <-; lia
                        | discriminate ] ].
Qed.

(** The loop makes no directory, and writes no file when
    [save_frames] is off. *)
Lemma poll_loop_fs steps : forall fc fs,
  let x := ploop steps fc fs in
  count is_makedirs (trace x) = 0%nat /\
  dirs (final_fs x) = dirs fs /\
  (save_frames = false ->
   count is_imwrite (trace x) = 0%nat /\ final_fs x = fs).
Proof.
  induction steps as [|s rest IH]; intros fc fs; cbv zeta.
  - cbn. auto.
  - poll_cases s.
    all: rewrite ?trace_prepend, ?final_fs_prepend, ?count_app.
    all: poll_rest IH.
    all: cbn [trace final_fs fst snd app count filter is_makedirs
              is_imwrite length dirs] in *.
    all: rewrite ?count_app;
      cbn [trace final_fs fst snd app count filter is_makedirs
              is_imwrite length dirs] in *.
    all: try (destruct IH as (IH1 & IH2 & IH3)).
    all: repeat split; intros; try discriminate;
      try (destruct IH3 as [? ?]; [assumption|]); subst;
      try assumption; try reflexivity; try lia.
Qed.

(** A key is polled, for 100 ms, exactly in the passes that captured
    a frame, and only with the live view on. *)
Lemma poll_loop_waitkey steps : forall fc fs,
  let x := ploop steps fc fs in
  count is_waitkey (trace x) =
    (if show_live then length (capture_seqs (trace x)) else 0%nat) /\
  forall ms, In (WaitKey ms) (trace x) -> ms = 100.
Proof.
  induction steps as [|s rest IH]; intros fc fs; cbv zeta.
  - cbn. split; [now destruct show_live | tauto].
  - poll_cases s.
    all: rewrite ?trace_prepend, ?count_app, ?capture_seqs_app.
    all: poll_rest IH.
    all: cbn [trace fst snd app count filter is_waitkey capture_seqs
              capture_seq length] in *.
    all: rewrite ?count_app, ?capture_seqs_app;
      cbn [trace fst snd app count filter is_waitkey capture_seqs
              capture_seq length] in *.
    all: try (destruct IH as (IH1 & IH2)).
    all: split; [try reflexivity; lia|].
    all: (intros ms Hin; cbn [In] in Hin;
      repeat (destruct Hin as [Hin|Hin]; try discriminate Hin;
              try (injection Hin as <-; reflexivity));
      try contradiction; try (apply in_app_or in Hin; destruct Hin as [Hin|Hin]);
      auto).
Qed.
End PollLoopFacts.

(** Names the run of the rest of the read loop and takes the induction
    hypothesis at its state. *)
Ltac read_rest IH :=
  try match goal with
    | |- context [read_loop ?i ?sv ?sh ?o ?r ?a ?b ?c] =>
        specialize (IH a b c); cbv zeta in IH;
        destruct (read_loop i sv sh o r a b c) as [[?tr ?fs] ?r]
    end.

Section ReadLoopMore.
Variables (interval : Z) (save_frames show_live : bool).
Variable output_folder : option string.
Local Abbreviation loop :=
  (read_loop interval save_frames show_live output_folder).

(** The loop makes no directory, and writes no file when
    [save_frames] is off. *)
Lemma read_loop_fs steps : forall last fc fs,
  let x := loop steps last fc fs in
  count is_makedirs (trace x) = 0%nat /\
  dirs (final_fs x) = dirs fs /\
  (save_frames = false ->
   count is_imwrite (trace x) = 0%nat /\ final_fs x = fs).
Proof.
  induction steps as [|s rest IH]; intros last fc fs; cbv zeta.
  - cbn. auto.
  - read_cases s.
    all: rewrite ?trace_prepend, ?final_fs_prepend, ?count_app.
    all: read_rest IH.
    all: destruct show_live; try destruct (rd_write_ok s).
    all: cbn [trace final_fs fst snd app count filter is_makedirs
              is_imwrite length dirs] in *.
    all: try (destruct IH as (IH1 & IH2 & IH3)).
    all: repeat split; intros; try discriminate;
      try (destruct IH3 as [? ?]; [assumption|]); subst;
      try assumption; try reflexivity; try lia.
Qed.

(** With the output folder assigned whenever frames are saved, the
    loop raises nothing. *)
Lemma read_loop_no_err steps : forall last fc fs e,
  (save_frames = true -> output_folder <> None) ->
  outcome (loop steps last fc fs) <> Err e.
Proof.
  induction steps as [|s rest IH]; intros last fc fs e' Hof;
    [discriminate|].
  read_cases s; rewrite ?outcome_prepend; try (apply IH; assumption);
    cbn [outcome snd]; try discriminate.
  exfalso. now apply Hof.
Qed.

(** A run of the loop is empty or starts at a [cap.read()]. *)
Lemma read_loop_head steps last fc fs :
  captured_before_read (trace (loop steps last fc fs)) = false.
Proof.
  destruct steps as [|s rest]; [reflexivity|].
  read_cases s; reflexivity.
Qed.

(** Which frames the loop captures: the one whose time is at least
    [interval] past the time of the latest capture before it, or past
    [last_capture_time] as the loop was entered with when there is no
    capture before it. *)
Lemma read_loop_flags steps : forall last fc fs,
  (save_frames = true -> output_folder <> None) ->
  let flags := capture_flags (trace (loop steps last fc fs)) in
  let times := map rd_time steps in
  (length flags <= length steps)%nat /\
  forall i, (i < length flags)%nat ->
    (nth i flags false = true <->
     interval <= nth i times 0 - previous_capture last flags times i).
Proof.
  induction steps as [|s rest IH]; intros last fc fs Hof; cbv zeta.
  - cbn. split; [lia | intros i Hi; lia].
  - read_cases s.
    all: try (exfalso; now apply Hof).
    all: rewrite ?trace_prepend.
    all: try match goal with
         | |- context [read_loop ?i ?sv ?sh ?o ?r ?a ?b ?c] =>
             specialize (IH a b c Hof); cbv zeta in IH;
             pose proof (read_loop_head r a b c) as Hhead;
             destruct (read_loop i sv sh o r a b c) as [[tr2 fs2] r2]
         end.
    all: destruct show_live;
      cbn [trace fst snd app capture_flags captured_before_read
           is_capture capture_seq orb length map] in *;
      rewrite ?Hhead.
    all: try (destruct IH as [IHlen IH]).
    all: (split; [cbn [length]; lia|]).
    all: intros [|i] Hi; cbn [length] in Hi;
      unfold previous_capture;
      cbn [nth firstn last_captured].
    all: first
      [ exfalso; lia
      | apply IH; lia
      | first [ apply Z.leb_le in Hdue | apply Z.leb_gt in Hdue ];
        split; intros; try discriminate; try reflexivity; lia ].
Qed.
End ReadLoopMore.

Section ReadFailure.
Variables (interval : Z) (save_frames show_live : bool).
Variable output_folder : option string.
Local Abbreviation loop :=
  (read_loop interval save_frames show_live output_folder).

(** The first failing [cap.read()] ends the loop: it is the last read,
    the failure is printed, and what follows in the script is left
    alone. *)
Lemma read_loop_failure pre s post : forall last fc fs,
  (save_frames = true -> output_folder <> None) ->
  Forall flowing pre ->
  rd_frame s = None ->
  let x := loop (pre ++ s :: post) last fc fs in
  (exists n, outcome x = Ok n) /\
  exists tr0,
    trace x = tr0 ++ [Read None; Print MsgReadError] /\
    count is_read tr0 = length pre.
Proof.
  induction pre as [|p pre IH]; intros last fc fs Hof Hpre Hs; cbv zeta.
  - cbn [app]. rewrite read_loop_step, Hs.
    split; [now exists fc | now exists []].
  - inversion Hpre as [|? ? [Hp Hq] Hpre']; subst.
    cbn [app]. read_cases p.
    all: try contradiction.
    all: try (exfalso; now apply Hof).
    all: try (apply Z.eqb_eq in Hquit; contradiction).
    all: rewrite ?prepend_prepend, ?trace_prepend, ?outcome_prepend.
    all: match goal with
         | |- context [read_loop ?i ?sv ?sh ?o ?r ?a ?b ?c] =>
             destruct (IH a b c Hof Hpre' Hs) as (Hok & tr0 & Htr & Hn)
         end.
    all: split; [assumption|].
    all: rewrite Htr.
    all: eexists; split; [rewrite app_assoc; reflexivity|].
    all: rewrite count_app, Hn; destruct show_live; reflexivity.
Qed.
End ReadFailure.

(** ** Reports of the total *)

Lemma totals_app l1 l2 : totals (l1 ++ l2) = totals l1 ++ totals l2.
Proof.
  induction l1 as [|e l1 IH]; [reflexivity|].
  destruct e as [[]| | | | | | | | | |]; cbn [app totals]; now rewrite IH.
Qed.

Lemma read_loop_no_total interval save_frames show_live output_folder steps :
  forall last fc fs,
    totals (trace (read_loop interval save_frames show_live output_folder
                     steps last fc fs)) = [].
Proof.
  induction steps as [|s rest IH]; intros last fc fs; [reflexivity|].
  read_cases s.
  all: rewrite ?prepend_prepend, ?trace_prepend, ?totals_app, ?IH.
  all: destruct show_live; reflexivity.
Qed.

Lemma poll_loop_no_total stream_url interval save_frames show_live
  output_folder steps : forall fc fs,
    totals (trace (poll_loop stream_url interval save_frames show_live
                     output_folder steps fc fs)) = [].
Proof.
  induction steps as [|s rest IH]; intros fc fs; [reflexivity|].
  poll_cases s.
  all: rewrite ?prepend_prepend, ?trace_prepend, ?totals_app, ?IH.
  all: reflexivity.
Qed.

(** ** Sequence numbers *)

Lemma capture_snapshot_stream_seqs stream_url interval save_frames show_live
  output_folder steps fs :
  let tr := trace (capture_snapshot_stream stream_url interval save_frames
                     show_live output_folder steps fs) in
  capture_seqs tr = seq 1 (length (capture_seqs tr)) /\
  forall n, In n (totals tr) -> n = length (capture_seqs tr).
Proof.
  cbv zeta. rewrite capture_snapshot_stream_eq. cbv zeta.
  pose proof (poll_loop_seqs stream_url interval save_frames show_live
                output_folder steps 0 fs) as [Hseq Hn].
  pose proof (poll_loop_no_total stream_url interval save_frames show_live
                output_folder steps 0 fs) as Hno.
  cbv zeta in Hseq, Hn.
  destruct (poll_loop _ _ _ _ _ steps 0%nat fs) as [[tr fs1] r].
  cbn [trace outcome final_fs fst snd] in *.
  destruct r as [[[|[]] n]|e|];
    cbn [prepend trace final_fs outcome fst snd app capture_seqs
         capture_seq totals];
    rewrite ?capture_seqs_app, ?totals_app, ?Hno;
    cbn [capture_seqs capture_seq totals app]; rewrite ?app_nil_r.
  all: split; [exact Hseq|].
  all: intros m Hm;
    first [ contradiction | destruct Hm as [<-|[]]; exact (Hn _ _ eq_refl) ].
Qed.

Lemma capture_stream_seqs stream_url interval save_frames show_live sc fs :
  let tr := trace (capture_stream stream_url interval save_frames show_live
                     sc fs) in
  capture_seqs tr = seq 1 (length (capture_seqs tr)) /\
  forall n, In n (totals tr) -> n = length (capture_seqs tr).
Proof.
  cbv zeta. rewrite capture_stream_eq. cbv zeta.
  set (d := session_folder (session_timestamp sc)).
  set (fs1 := if save_frames && negb _ then _ else fs).
  set (setup := if save_frames then _ else []).
  assert (Hsetup : capture_seqs setup = [] /\ totals setup = []).
  { subst setup. destruct save_frames, (existsb _ (dirs fs)); now cbn. }
  destruct Hsetup as [Hs1 Hs2].
  rewrite trace_prepend, capture_seqs_app, totals_app, Hs1, Hs2.
  cbn [app].
  destruct (is_snapshot stream_url).
  - destruct save_frames.
    + rewrite trace_prepend. cbn [app capture_seqs capture_seq totals].
      apply capture_snapshot_stream_seqs.
    + cbn. split; [reflexivity | tauto].
  - destruct (is_opened sc).
    + pose proof (read_loop_seqs interval save_frames show_live
        (if save_frames then Some d else None) (reads sc) 0 0 fs1)
        as [Hseq Hn].
      pose proof (read_loop_no_total interval save_frames show_live
        (if save_frames then Some d else None) (reads sc) 0 0 fs1) as Hno.
      cbv zeta in Hseq, Hn.
      destruct (read_loop _ _ _ _ (reads sc) 0 0%nat fs1) as [[tr fs2] r].
      cbn [trace outcome final_fs fst snd] in *.
      destruct r as [n|e|];
        cbn [prepend trace final_fs outcome fst snd app capture_seqs
             capture_seq totals];
        rewrite ?capture_seqs_app, ?totals_app, ?Hno;
        cbn [capture_seqs capture_seq totals app]; rewrite ?app_nil_r.
      all: split; [exact Hseq|].
      all: intros m Hm;
        first [ contradiction | destruct Hm as [<-|[]]; exact (Hn _ eq_refl) ].
    + cbn. split; [reflexivity | tauto].
Qed.

(** ** Decimation by the interval *)

Lemma captured_before_read_quiet tr post :
  forallb quiet post = true ->
  captured_before_read (tr ++ post) = captured_before_read tr.
Proof.
  intros Hq. induction tr as [|e tr IH].
  - cbn [app captured_before_read].
    induction post as [|e post IH]; [reflexivity|].
    cbn [forallb] in Hq. apply andb_prop in Hq as [He Hq].
    unfold quiet in He. apply andb_prop in He as [He1 He2].
    destruct e; try discriminate He1;
      cbn [captured_before_read]; rewrite (IH Hq);
      now destruct (is_capture _).
  - destruct e; cbn [app captured_before_read]; now rewrite ?IH.
Qed.

Lemma capture_flags_quiet tr post :
  forallb quiet post = true ->
  capture_flags (tr ++ post) = capture_flags tr.
Proof.
  intros Hq. induction tr as [|e tr IH].
  - cbn [app capture_flags].
    induction post as [|e post IH]; [reflexivity|].
    cbn [forallb] in Hq. apply andb_prop in Hq as [He Hq].
    unfold quiet in He. apply andb_prop in He as [He1 _].
    destruct e; try discriminate He1; cbn [capture_flags]; exact (IH Hq).
  - destruct e as [| | |[f|]| | | | | | |]; cbn [app capture_flags];
      rewrite ?IH, ?captured_before_read_quiet by assumption; reflexivity.
Qed.

Lemma captured_before_read_seqs tr :
  captured_before_read tr = true -> capture_seqs tr <> [].
Proof.
  induction tr as [|e tr IH]; [discriminate|].
  destruct e as [m| | | | | | | | | |]; cbn [captured_before_read is_capture
    capture_seq capture_seqs orb]; try discriminate; try exact IH.
  destruct m; cbn [orb]; try exact IH; discriminate.
Qed.

(** A frame flagged as captured is a capture the run reports. *)
Lemma capture_flags_seqs tr :
  In true (capture_flags tr) -> capture_seqs tr <> [].
Proof.
  induction tr as [|e tr IH]; [intros []|].
  assert (Hmono : capture_seqs tr <> [] -> capture_seqs (e :: tr) <> []).
  { cbn [capture_seqs]. now destruct (capture_seq e). }
  destruct e as [| | |[f|]| | | | | | |]; cbn [capture_flags]; auto.
  intros [H|H]; auto. now apply Hmono, captured_before_read_seqs.
Qed.

(** The frames the continuous capturer reads and those it captures, in
    terms of the loop that [capture_stream] enters at time stamp 0. *)
Lemma capture_stream_flags stream_url interval save_frames show_live sc fs :
  is_snapshot stream_url = false ->
  exists last_fs,
    capture_flags
      (trace (capture_stream stream_url interval save_frames show_live sc fs))
    = (if is_opened sc
       then capture_flags
              (trace (read_loop interval save_frames show_live
                        (if save_frames
                         then Some (session_folder (session_timestamp sc))
                         else None) (reads sc) 0 0 last_fs))
       else []).
Proof.
  intros Hsnap. rewrite capture_stream_eq, Hsnap. cbv zeta.
  set (fs1 := if save_frames && negb _ then _ else fs). exists fs1.
  set (setup := if save_frames then _ else []).
  assert (Hsetup : forall tr, capture_flags (setup ++ tr) = capture_flags tr).
  { intros tr. subst setup.
    destruct save_frames, (existsb _ (dirs fs)); reflexivity. }
  rewrite trace_prepend, Hsetup.
  destruct (is_opened sc); [|reflexivity].
  rewrite trace_prepend. cbn [app capture_flags].
  destruct (read_loop _ _ _ _ (reads sc) 0 0%nat fs1) as [[tr fs2] [n|e|]];
    cbn [trace outcome fst snd]; try reflexivity.
  now apply capture_flags_quiet.
Qed.

(** C1, as stated, fails: with interval 30 a stream whose only frame
    arrives at time 5 has that frame read and not captured, because
    [last_capture_time] starts at 0 and 5 - 0 < 30.  The same happens on
    the wall clock (1700000000 seconds after the epoch) with an interval
    of 2000000000 seconds. *)
Lemma first_frame_skipped :
  let run interval t :=
    trace (capture_stream "rtsp://h/live" interval true true
             (mkScript "2024-01-02_03-04-05" true
                [mkRead (Some 1%nat) t "2024-01-02_03-04-10" true (-1)] [])
             (mkFs [] [])) in
  (count is_read (run 30 5) = 1%nat /\ capture_flags (run 30 5) = [false] /\
   capture_seqs (run 30 5) = []) /\
  (count is_read (run 2000000000 1700000000) = 1%nat /\
   capture_flags (run 2000000000 1700000000) = [false] /\
   capture_seqs (run 2000000000 1700000000) = []).
Proof. repeat split. Qed.

(** C1, amended: in continuous mode the frames captured are exactly
    those whose time stamp minus the time stamp of the latest capture
    before them is at least the interval, where 0 stands for that time
    stamp as long as nothing was captured.  So the first frame read is
    captured exactly when its own time stamp is at least the interval (as
    wall-clock time is), and then the run has a capture. *)
Theorem decimation_by_interval stream_url interval save_frames show_live sc
  fs (i : nat) :
  is_snapshot stream_url = false ->
  let tr := trace (capture_stream stream_url interval save_frames show_live
                     sc fs) in
  let flags := capture_flags tr in
  let times := map rd_time (reads sc) in
  (i < length flags)%nat ->
  (nth i flags false = true <->
   interval <= nth i times 0 - previous_capture 0 flags times i) /\
  (nth 0 flags false = true <-> interval <= nth 0 times 0) /\
  (interval <= nth 0 times 0 -> capture_seqs tr <> []).
Proof.
  intros Hsnap tr flags times Hi.
  destruct (capture_stream_flags stream_url interval save_frames show_live
              sc fs Hsnap) as [fs1 Hflags].
  fold tr in Hflags. fold flags in Hflags.
  destruct (is_opened sc); [|rewrite Hflags in Hi; cbn in Hi; lia].
  assert (Hof : save_frames = true ->
                (if save_frames
                 then Some (session_folder (session_timestamp sc))
                 else None) <> None)
    by (intros ->; discriminate).
  destruct (read_loop_flags interval save_frames show_live _ (reads sc)
              0 0 fs1 Hof) as [_ Hloop].
  rewrite <- Hflags in Hloop. fold times in Hloop.
  assert (H0 : nth 0 flags false = true <-> interval <= nth 0 times 0).
  { rewrite (Hloop 0%nat) by lia. unfold previous_capture. cbn.
    now rewrite Z.sub_0_r. }
  split; [now apply Hloop|]. split; [exact H0|].
  intros Hdue. apply H0 in Hdue.
  apply capture_flags_seqs. fold flags. rewrite <- Hdue.
  apply nth_In. lia.
Qed.

Lemma decimation_by_interval_witness :
  let sc := mkScript "2024-01-02_03-04-05" true
              [mkRead (Some 1%nat) 100 "a" true (-1);
               mkRead (Some 2%nat) 110 "b" false (-1);
               mkRead (Some 3%nat) 130 "c" true (-1);
               mkRead (Some 4%nat) 131 "d" true (-1)] [] in
  let tr := trace (capture_stream "rtsp://h/live" 30 true true sc
                     (mkFs [] [])) in
  is_snapshot "rtsp://h/live" = false /\
  (2 < length (capture_flags tr))%nat /\
  (nth 2 (capture_flags tr) false = true <->
   30 <= nth 2 (map rd_time (reads sc)) 0
         - previous_capture 0 (capture_flags tr) (map rd_time (reads sc)) 2) /\
  (nth 0 (capture_flags tr) false = true <->
   30 <= nth 0 (map rd_time (reads sc)) 0) /\
  (30 <= nth 0 (map rd_time (reads sc)) 0 -> capture_seqs tr <> []).
Proof.
  intros sc tr.
  assert (H1 : is_snapshot "rtsp://h/live" = false) by reflexivity.
  assert (H2 : (2 < length (capture_flags tr))%nat) by (vm_compute; lia).
  split; [exact H1|]. split; [exact H2|].
  exact (decimation_by_interval "rtsp://h/live" 30 true true sc (mkFs [] [])
           2 H1 H2).
Defined.

(** ** Failures of the continuous capturer *)

(** C9: in continuous mode, with a stream that cannot be opened the run
    ends at once after saying so: nothing is read, nothing is captured,
    no file is written.  With a stream that opens, the first read that
    fails is the last read of the run (what the script holds after it is
    never asked for): the failure is printed, the stream is released and
    the total printed last is the number of captures made so far. *)
Theorem stream_failures_fatal stream_url interval save_frames show_live sc fs :
  is_snapshot stream_url = false ->
  let x := capture_stream stream_url interval save_frames show_live sc fs in
  (is_opened sc = false ->
   outcome x = Ok tt /\
   count is_read (trace x) = 0%nat /\
   capture_seqs (trace x) = [] /\
   files (final_fs x) = files fs /\
   exists tr0, trace x = tr0 ++ [VideoCapture stream_url; Print MsgOpenError])
  /\
  (forall pre s post,
      is_opened sc = true ->
      reads sc = pre ++ s :: post ->
      Forall flowing pre ->
      rd_frame s = None ->
      outcome x = Ok tt /\
      count is_read (trace x) = S (length pre) /\
      exists tr0,
        trace x = tr0 ++ [Read None; Print MsgReadError; Release;
                          DestroyAllWindows;
                          Print (MsgTotal (length (capture_seqs (trace x))))]).
Proof.
  intros Hsnap x. subst x. rewrite capture_stream_eq, Hsnap. cbv zeta.
  set (d := session_folder (session_timestamp sc)).
  set (fs1 := if save_frames && negb _ then _ else fs).
  set (setup := if save_frames then _ else []).
  assert (Hsetup : count is_read setup = 0%nat /\ capture_seqs setup = [] /\
                   files fs1 = files fs).
  { subst setup fs1. destruct save_frames, (existsb _ (dirs fs)); now cbn. }
  destruct Hsetup as (Hs1 & Hs2 & Hs3).
  split.
  - intros ->. rewrite trace_prepend, outcome_prepend, final_fs_prepend,
      count_app, capture_seqs_app, Hs1, Hs2.
    cbn [trace outcome final_fs fst snd].
    repeat split; try assumption.
    exists (setup ++ [Print (MsgConnecting stream_url)]).
    now rewrite <- app_assoc.
  - intros pre s post -> Hreads Hpre Hs.
    assert (Hof : save_frames = true ->
                  (if save_frames then Some d else None) <> None)
      by (intros ->; discriminate).
    rewrite Hreads.
    destruct (read_loop_failure interval save_frames show_live _ pre s post
                0 0 fs1 Hof Hpre Hs) as ([n Hok] & tr0 & Htr & Hcount).
    pose proof (read_loop_seqs interval save_frames show_live
                  (if save_frames then Some d else None) (pre ++ s :: post)
                  0 0 fs1) as [_ Hn].
    cbv zeta in Hn. specialize (Hn n Hok). cbn [Nat.add] in Hn.
    rewrite !trace_prepend, !outcome_prepend, Hok.
    cbn [trace outcome fst snd].
    rewrite !capture_seqs_app, Hs2. cbn [capture_seqs capture_seq app].
    rewrite app_nil_r, <- Hn, Htr.
    split; [reflexivity|]. split.
    + unfold count in *.
      repeat (rewrite ?filter_app, ?length_app; cbn [filter is_read length app]).
      rewrite Hs1, Hcount. lia.
    + exists (setup ++ [Print (MsgConnecting stream_url);
                        VideoCapture stream_url; Print (MsgEvery interval)]
                ++ tr0).
      now rewrite <- !app_assoc.
Qed.

Lemma stream_failures_fatal_witness :
  let closed := mkScript "2024-01-02_03-04-05" false [] [] in
  let sc := mkScript "2024-01-02_03-04-05" true
              [mkRead (Some 1%nat) 100 "a" true (-1);
               mkRead (Some 2%nat) 140 "b" true (-1);
               mkRead None 0 "" true (-1);
               mkRead (Some 3%nat) 200 "c" true (-1)] [] in
  let x := capture_stream "rtsp://h/live" 30 true true sc (mkFs [] []) in
  count is_read
    (trace (capture_stream "rtsp://h/live" 30 true true closed (mkFs [] [])))
  = 0%nat /\
  outcome x = Ok tt /\ count is_read (trace x) = 3%nat /\
  totals (trace x) = [2%nat].
Proof.
  intros closed sc x.
  pose proof (stream_failures_fatal "rtsp://h/live" 30 true true closed
                (mkFs [] []) eq_refl) as [Hclosed _].
  pose proof (stream_failures_fatal "rtsp://h/live" 30 true true sc
                (mkFs [] []) eq_refl) as [_ Hfail].
  destruct (Hclosed eq_refl) as (_ & Hc & _).
  assert (Hflow : Forall flowing
                    [mkRead (Some 1%nat) 100 "a" true (-1);
                     mkRead (Some 2%nat) 140 "b" true (-1)])
    by (repeat constructor; cbn; discriminate).
  destruct (Hfail [mkRead (Some 1%nat) 100 "a" true (-1);
                   mkRead (Some 2%nat) 140 "b" true (-1)]
              (mkRead None 0 "" true (-1))
              [mkRead (Some 3%nat) 200 "c" true (-1)]
              eq_refl eq_refl Hflow eq_refl) as (Hok & Hreads & _).
  split; [exact Hc|]. split; [exact Hok|]. split; [exact Hreads|].
  reflexivity.
Defined.

(** ** The snapshot branch with saving switched off *)

(** C10: for an address that classifies as a snapshot address,
    [capture_stream] with [save_frames] false stops at the call of
    [capture_snapshot_stream]: reading [output_folder], which was never
    assigned, raises an unbound-variable error after the line that
    announces the snapshot address and before any request is made. *)
Theorem snapshot_without_saving_raises stream_url interval show_live sc fs :
  is_snapshot stream_url = true ->
  capture_stream stream_url interval false show_live sc fs =
    ([Print (MsgDetected stream_url)], fs,
     Err (UnboundLocalError "output_folder")) /\
  count is_get
    (trace (capture_stream stream_url interval false show_live sc fs))
  = 0%nat.
Proof.
  intros Hsnap.
  assert (E : capture_stream stream_url interval false show_live sc fs =
              ([Print (MsgDetected stream_url)], fs,
               Err (UnboundLocalError "output_folder"))).
  { rewrite capture_stream_eq, Hsnap. reflexivity. }
  split; [exact E | now rewrite E].
Qed.

Lemma snapshot_without_saving_raises_witness :
  let sc := mkScript "2024-01-02_03-04-05" true []
              [mkPoll (Response 200 (Some 1%nat)) "a" true (-1) false] in
  is_snapshot "http://h/webcapture.jpg?command=snap" = true /\
  outcome (capture_stream "http://h/webcapture.jpg?command=snap" 30 false
             true sc (mkFs [] []))
  = Err (UnboundLocalError "output_folder").
Proof.
  intros sc.
  assert (H : is_snapshot "http://h/webcapture.jpg?command=snap" = true)
    by reflexivity.
  split; [exact H|].
  destruct (snapshot_without_saving_raises
              "http://h/webcapture.jpg?command=snap" 30 true sc (mkFs [] [])
              H) as [E _].
  now rewrite E.
Defined.

(** ** Directories and files *)

Lemma capture_snapshot_stream_fs stream_url interval save_frames show_live
  output_folder steps fs :
  let x := capture_snapshot_stream stream_url interval save_frames show_live
             output_folder steps fs in
  count is_makedirs (trace x) = 0%nat /\
  dirs (final_fs x) = dirs fs /\
  (save_frames = false ->
   count is_imwrite (trace x) = 0%nat /\ final_fs x = fs).
Proof.
  cbv zeta. rewrite capture_snapshot_stream_eq. cbv zeta.
  pose proof (poll_loop_fs stream_url interval save_frames show_live
                output_folder steps 0 fs) as (H1 & H2 & H3).
  cbv zeta in H1, H2, H3.
  destruct (poll_loop _ _ _ _ _ steps 0%nat fs) as [[tr fs1] r].
  cbn [trace outcome final_fs fst snd] in *.
  assert (G : forall post r',
    count is_makedirs post = 0%nat -> count is_imwrite post = 0%nat ->
    let y := prepend [Print (MsgEvery interval); Print MsgCtrlC]
               (tr ++ post, fs1, r' : result unit) in
    count is_makedirs (trace y) = 0%nat /\
    dirs (final_fs y) = dirs fs /\
    (save_frames = false ->
     count is_imwrite (trace y) = 0%nat /\ final_fs y = fs)).
  { intros post r' Hp1 Hp2. cbv zeta.
    cbn [prepend trace final_fs fst snd app].
    change (Print (MsgEvery interval) :: Print MsgCtrlC :: tr ++ post)
      with ([Print (MsgEvery interval); Print MsgCtrlC] ++ tr ++ post).
    rewrite !count_app, H1, Hp1, Hp2.
    split; [reflexivity|]. split; [exact H2|].
    intros Hs. destruct (H3 Hs) as [-> ->]. now split. }
  destruct r as [[[|[]] n]|e|];
    first [ apply G; reflexivity
          | rewrite <- (app_nil_r tr); apply G; reflexivity ].
Qed.

Lemma capture_stream_fs stream_url interval save_frames show_live sc fs :
  let d := session_folder (session_timestamp sc) in
  let there := existsb (String.eqb d) (dirs fs) in
  let x := capture_stream stream_url interval save_frames show_live sc fs in
  exists tr',
    trace x = (if save_frames && negb there then [Makedirs d] else []) ++ tr' /\
    count is_makedirs tr' = 0%nat /\
    dirs (final_fs x) =
      (if save_frames && negb there then d :: dirs fs else dirs fs) /\
    (save_frames = false ->
     count is_imwrite (trace x) = 0%nat /\ final_fs x = fs).
Proof.
  cbv zeta. rewrite capture_stream_eq. cbv zeta.
  set (d := session_folder (session_timestamp sc)).
  set (there := existsb (String.eqb d) (dirs fs)).
  set (fs1 := if save_frames && negb there then _ else fs).
  assert (Hfs1 : dirs fs1 =
                 if save_frames && negb there then d :: dirs fs else dirs fs)
    by (subst fs1; now destruct (save_frames && negb there)).
  assert (Hfs2 : save_frames = false -> fs1 = fs)
    by (intros ->; reflexivity).
  assert (G : forall (y : list event * filesystem * result unit),
    count is_makedirs (trace y) = 0%nat ->
    dirs (final_fs y) = dirs fs1 ->
    (save_frames = false ->
     count is_imwrite (trace y) = 0%nat /\ final_fs y = fs1) ->
    let x := prepend
               (if save_frames
                then (if there then [] else [Makedirs d])
                       ++ [Print (MsgSavedTo d)]
                else []) y in
    exists tr',
      trace x = (if save_frames && negb there then [Makedirs d] else [])
                  ++ tr' /\
      count is_makedirs tr' = 0%nat /\
      dirs (final_fs x) =
        (if save_frames && negb there then d :: dirs fs else dirs fs) /\
      (save_frames = false ->
       count is_imwrite (trace x) = 0%nat /\ final_fs x = fs)).
  { intros y Hy1 Hy2 Hy3. cbv zeta.
    rewrite trace_prepend, final_fs_prepend, Hy2, Hfs1.
    exists ((if save_frames then [Print (MsgSavedTo d)] else []) ++ trace y).
    split; [destruct save_frames, there; reflexivity|].
    split; [rewrite count_app, Hy1; now destruct save_frames|].
    split; [reflexivity|].
    intros Hs. destruct (Hy3 Hs) as [Hi ->]. rewrite (Hfs2 Hs).
    split; [|reflexivity]. subst save_frames. exact Hi. }
  apply G; clear G.
  - destruct (is_snapshot stream_url), save_frames, (is_opened sc);
      try reflexivity; rewrite ?trace_prepend, ?count_app;
      try (now rewrite (proj1 (capture_snapshot_stream_fs _ _ _ _ _ _ _)));
      match goal with
      | |- context [read_loop ?i ?sv ?sh ?o ?r ?a ?b ?c] =>
          pose proof (read_loop_fs i sv sh o r a b c) as (H1 & _);
          cbv zeta in H1;
          destruct (read_loop i sv sh o r a b c) as [[tr f] [n|e|]]
      end;
      cbn [trace outcome final_fs fst snd] in *;
      rewrite ?count_app, H1; reflexivity.
  - destruct (is_snapshot stream_url), save_frames, (is_opened sc);
      try reflexivity; rewrite ?final_fs_prepend;
      try (now rewrite (proj1 (proj2
                 (capture_snapshot_stream_fs _ _ _ _ _ _ _))));
      match goal with
      | |- context [read_loop ?i ?sv ?sh ?o ?r ?a ?b ?c] =>
          pose proof (read_loop_fs i sv sh o r a b c) as (_ & H2 & _);
          cbv zeta in H2;
          destruct (read_loop i sv sh o r a b c) as [[tr f] [n|e|]]
      end;
      cbn [trace outcome final_fs fst snd] in *; exact H2.
  - intros ->.
    destruct (is_snapshot stream_url), (is_opened sc);
      try (split; reflexivity);
      rewrite ?trace_prepend, ?final_fs_prepend, ?count_app;
      match goal with
      | |- context [read_loop ?i ?sv ?sh ?o ?r ?a ?b ?c] =>
          pose proof (read_loop_fs i sv sh o r a b c) as (_ & _ & H3);
          cbv zeta in H3; destruct (H3 eq_refl) as [H4 H5];
          destruct (read_loop i sv sh o r a b c) as [[tr f] [n|e|]]
      end;
      cbn [trace outcome final_fs fst snd] in *;
      rewrite ?count_app, H4; split; try reflexivity; exact H5.
Qed.

(** C5, as stated, fails on "lazily": with saving on and a stream that
    cannot be opened, the session folder is made although no frame is
    ever written. *)
Lemma folder_made_without_write :
  let x := capture_stream "rtsp://h/live" 30 true true
             (mkScript "2024-01-02_03-04-05" false [] []) (mkFs [] []) in
  trace x =
    [Makedirs "captured_frames/session_2024-01-02_03-04-05";
     Print (MsgSavedTo "captured_frames/session_2024-01-02_03-04-05");
     Print (MsgConnecting "rtsp://h/live"); VideoCapture "rtsp://h/live";
     Print MsgOpenError] /\
  count is_imwrite (trace x) = 0%nat /\
  dirs (final_fs x) = ["captured_frames/session_2024-01-02_03-04-05"%string]
  /\ files (final_fs x) = [].
Proof. repeat split. Qed.

(** C5, amended: with saving on, the session folder is made at the very
    start of the run, before the stream is opened or a request is made
    and so before the first frame is written, whether or not a frame is
    ever written; it is made once, and only when it does not exist yet.
    When it exists no creation is attempted.  With saving off no folder
    is made. *)
Theorem session_folder_made_at_start stream_url interval show_live sc fs :
  let d := session_folder (session_timestamp sc) in
  let there := existsb (String.eqb d) (dirs fs) in
  let x := capture_stream stream_url interval true show_live sc fs in
  let y := capture_stream stream_url interval false show_live sc fs in
  count is_makedirs (trace x) = (if there then 0 else 1)%nat /\
  (exists tr',
      trace x = (if there then [] else [Makedirs d]) ++ tr' /\
      count is_makedirs tr' = 0%nat) /\
  dirs (final_fs x) = (if there then dirs fs else d :: dirs fs) /\
  count is_makedirs (trace y) = 0%nat /\ dirs (final_fs y) = dirs fs.
Proof.
  cbv zeta.
  destruct (capture_stream_fs stream_url interval true show_live sc fs)
    as (tr1 & Htr1 & Hc1 & Hd1 & _).
  destruct (capture_stream_fs stream_url interval false show_live sc fs)
    as (tr2 & Htr2 & Hc2 & Hd2 & _).
  cbn [andb] in *.
  destruct (existsb _ (dirs fs)); cbn [negb app] in *.
  - rewrite Htr1, Htr2. repeat split; try assumption.
    exists tr1. now split.
  - rewrite Htr1, Htr2. repeat split; try assumption.
    + unfold count in *. cbn. now rewrite Hc1.
    + exists tr1. now split.
Qed.

(** ** Saving switched off *)

(** C3 holds of the two loops and fails from the entry point in snapshot
    mode.  With [save_frames] false a run of [capture_stream] makes no
    folder, writes no file and leaves the file system as it was, and so
    does [capture_snapshot_stream] called on its own; the captures are
    numbered 1, 2, ... all the same.  But from the entry point a snapshot
    address never reaches the loop: against an endpoint that would serve
    three good images the run raises before the first request and
    captures nothing. *)
Theorem saving_off_writes_nothing :
  (forall stream_url interval show_live sc fs,
      let x := capture_stream stream_url interval false show_live sc fs in
      count is_makedirs (trace x) = 0%nat /\
      count is_imwrite (trace x) = 0%nat /\ final_fs x = fs /\
      capture_seqs (trace x) = seq 1 (length (capture_seqs (trace x)))) /\
  (forall stream_url interval show_live output_folder steps fs,
      let x := capture_snapshot_stream stream_url interval false show_live
                 output_folder steps fs in
      count is_makedirs (trace x) = 0%nat /\
      count is_imwrite (trace x) = 0%nat /\ final_fs x = fs /\
      capture_seqs (trace x) = seq 1 (length (capture_seqs (trace x)))) /\
  (let good := mkPoll (Response 200 (Some 1%nat)) "2024-01-02_03-05-05"
                 true (-1) false in
   let sc := mkScript "2024-01-02_03-04-05" true [] [good; good; good] in
   let x := capture_stream "http://h/snap" 30 false false sc (mkFs [] []) in
   let y := capture_snapshot_stream "http://h/snap" 30 false false "unused"
              (polls sc) (mkFs [] []) in
   outcome x = Err (UnboundLocalError "output_folder") /\
   count is_get (trace x) = 0%nat /\ capture_seqs (trace x) = [] /\
   count is_get (trace y) = 3%nat /\ capture_seqs (trace y) = [1; 2; 3]%nat).
Proof.
  split; [|split].
  - intros. subst x.
    destruct (capture_stream_fs stream_url interval false show_live sc fs)
      as (tr & Htr & Hc & _ & Hoff).
    destruct (Hoff eq_refl) as [Hw Hfs].
    cbn [andb app] in Htr. rewrite Htr in *.
    repeat split; try assumption.
    rewrite <- Htr. apply capture_stream_seqs.
  - intros. subst x.
    destruct (capture_snapshot_stream_fs stream_url interval false show_live
                output_folder steps fs) as (Hc & _ & Hoff).
    destruct (Hoff eq_refl) as [Hw Hfs].
    repeat split; try assumption.
    apply capture_snapshot_stream_seqs.
  - repeat split.
Qed.

(** ** The quit check of the snapshot poller *)

(** A pass that ends in a failure makes no capture, polls no key and
    hands control on to the sleep. *)
Lemma poll_attempt_failed stream_url save_frames show_live output_folder
  s fc fs :
  failed_fetch (pl_fetch s) = true ->
  let x := poll_attempt stream_url save_frames show_live output_folder s fc
             fs in
  count is_waitkey (trace x) = 0%nat /\ capture_seqs (trace x) = [] /\
  outcome x = Ok (Next, fc).
Proof.
  intros Hf. cbv zeta.
  unfold poll_attempt, requests_get, try_except, bind, print, emit, raise,
    ret, trace, outcome.
  destruct (pl_fetch s) as [e| |status_code [frame|]]; cbn in Hf;
    try discriminate; try destruct (status_code =? 200);
    try discriminate; cbn; auto.
Qed.

(** A pass that captures a frame with the live view on polls the key
    once, for 100 ms, and breaks exactly on [q]. *)
Lemma poll_attempt_captured stream_url save_frames output_folder s fc fs
  frame :
  pl_fetch s = Response 200 (Some frame) ->
  let x := poll_attempt stream_url save_frames true output_folder s fc fs in
  count is_waitkey (trace x) = 1%nat /\ In (WaitKey 100) (trace x) /\
  outcome x =
    Ok (if Z.land (pl_key s) 255 =? ord_q then Break else Next, S fc).
Proof.
  intros Hf. cbv zeta.
  unfold poll_attempt, requests_get, try_except, bind, imwrite, imshow,
    waitKey, print, emit, raise, ret, trace, outcome.
  rewrite Hf.
  destruct save_frames; cbn -[Z.land Z.eqb];
    destruct (Z.land (pl_key s) 255 =? ord_q); cbn;
    repeat split; auto 10.
Qed.

(** C4, as stated, fails: with the live view on and [q] held down, a
    pass whose request fails polls no key; the loop sleeps and goes on
    to the next pass. *)
Lemma failed_fetch_skips_quit_check :
  let x := capture_snapshot_stream "http://h/snap" 30 true true
             "captured_frames/session_2024-01-02_03-04-05"
             [mkPoll (FetchError "timed out") "2024-01-02_03-05-05" true 113
                false] (mkFs [] []) in
  trace x =
    [Print (MsgEvery 30); Print MsgCtrlC; Get "http://h/snap" 10;
     Print (MsgFetchError "timed out"); Print (MsgWaiting 30); Sleep 30] /\
  count is_waitkey (trace x) = 0%nat /\ outcome x = Blocked.
Proof. repeat split. Qed.

(** C4, amended: in snapshot mode with the live view on, the quit
    signal is checked, with a wait of 100 ms, exactly in the passes that
    captured a frame, right after the frame is shown.  A pass that ends
    in a transport failure, a bad status or a decode failure checks
    nothing and goes on to the sleep.  On a quit request the loop ends
    there, without another request, and the run finishes by reporting
    the number of frames captured. *)
Theorem quit_checked_after_capture stream_url interval save_frames
  output_folder :
  (forall s fc fs,
      failed_fetch (pl_fetch s) = true ->
      let x := poll_attempt stream_url save_frames true output_folder s fc
                 fs in
      count is_waitkey (trace x) = 0%nat /\ outcome x = Ok (Next, fc)) /\
  (forall s fc fs frame,
      pl_fetch s = Response 200 (Some frame) ->
      let x := poll_attempt stream_url save_frames true output_folder s fc
                 fs in
      count is_waitkey (trace x) = 1%nat /\ In (WaitKey 100) (trace x) /\
      outcome x =
        Ok (if Z.land (pl_key s) 255 =? ord_q then Break else Next, S fc)) /\
  (forall steps fs,
      let x := capture_snapshot_stream stream_url interval save_frames true
                 output_folder steps fs in
      count is_waitkey (trace x) = length (capture_seqs (trace x)) /\
      forall ms, In (WaitKey ms) (trace x) -> ms = 100) /\
  (forall s rest fc fs frame,
      pl_fetch s = Response 200 (Some frame) ->
      Z.land (pl_key s) 255 = ord_q ->
      let x := poll_loop stream_url interval save_frames true output_folder
                 (s :: rest) fc fs in
      outcome x = Ok (Broke, S fc) /\ count is_get (trace x) = 1%nat) /\
  (forall steps fs n,
      outcome (poll_loop stream_url interval save_frames true output_folder
                 steps 0 fs) = Ok (Broke, n) ->
      let x := capture_snapshot_stream stream_url interval save_frames true
                 output_folder steps fs in
      outcome x = Ok tt /\ totals (trace x) = [n] /\
      n = length (capture_seqs (trace x))).
Proof.
  split; [|split; [|split; [|split]]].
  - intros s fc fs Hf.
    now destruct (poll_attempt_failed stream_url save_frames true
                    output_folder s fc fs Hf) as (? & _ & ?).
  - intros s fc fs frame Hf. now apply (poll_attempt_captured _ _ _ _ _ _ frame).
  - intros steps fs. cbv zeta. rewrite capture_snapshot_stream_eq. cbv zeta.
    pose proof (poll_loop_waitkey stream_url interval save_frames true
                  output_folder steps 0 fs) as [Hc Hms].
    cbv zeta in Hc, Hms.
    destruct (poll_loop _ _ _ _ _ steps 0%nat fs) as [[tr fs1] r].
    cbn [trace outcome final_fs fst snd] in *.
    assert (G : forall post r',
      count is_waitkey post = 0%nat -> capture_seqs post = [] ->
      let y := prepend [Print (MsgEvery interval); Print MsgCtrlC]
                 (tr ++ post, fs1, r' : result unit) in
      count is_waitkey (trace y) = length (capture_seqs (trace y)) /\
      forall ms, In (WaitKey ms) (trace y) -> ms = 100).
    { intros post r' Hp1 Hp2. cbv zeta.
      cbn [prepend trace fst snd app].
      change (Print (MsgEvery interval) :: Print MsgCtrlC :: tr ++ post)
        with ([Print (MsgEvery interval); Print MsgCtrlC] ++ tr ++ post).
      rewrite !count_app, !capture_seqs_app, Hp1, Hp2, Hc, app_nil_r.
      split; [cbn; lia|].
      intros ms Hin. apply in_app_or in Hin as [Hin|Hin].
      - cbn in Hin. destruct Hin as [Hin|[Hin|[]]]; discriminate.
      - apply in_app_or in Hin as [Hin|Hin]; [now apply Hms|].
        exfalso. unfold count in Hp1.
        assert (Hf : In (WaitKey ms) (filter is_waitkey post))
          by (apply filter_In; now split).
        destruct (filter is_waitkey post); [exact Hf | discriminate]. }
    destruct r as [[[|[]] n]|e|];
      first [ apply G; reflexivity
            | rewrite <- (app_nil_r tr); apply G; reflexivity ].
  - intros s rest fc fs frame Hf Hq. cbv zeta.
    rewrite poll_loop_step, Hf. cbv zeta. cbn [Z.eqb Pos.eqb].
    apply Z.eqb_eq in Hq. rewrite Hq.
    split; [reflexivity|]. destruct save_frames; reflexivity.
  - intros steps fs n Hok. cbv zeta.
    pose proof (capture_snapshot_stream_seqs stream_url interval save_frames
                  true output_folder steps fs) as [_ Htot].
    cbv zeta in Htot. revert Htot.
    rewrite capture_snapshot_stream_eq. cbv zeta. rewrite Hok.
    pose proof (poll_loop_no_total stream_url interval save_frames true
                  output_folder steps 0 fs) as Hno.
    rewrite trace_prepend, outcome_prepend. cbn [trace outcome fst snd].
    rewrite !totals_app, Hno. cbn [totals app].
    intros Htot. repeat split. apply Htot. now left.
Qed.

Lemma quit_checked_after_capture_witness :
  let failing := mkPoll (Response 503 None) "a" true 113 false in
  let good := mkPoll (Response 200 (Some 1%nat)) "b" true 113 false in
  let x := capture_snapshot_stream "http://h/snap" 30 true true "out"
             [failing; good; good] (mkFs [] []) in
  failed_fetch (pl_fetch failing) = true /\
  count is_waitkey
    (trace (poll_attempt "http://h/snap" true true "out" failing 0
              (mkFs [] []))) = 0%nat /\
  outcome (poll_attempt "http://h/snap" true true "out" good 0 (mkFs [] []))
  = Ok (Break, 1%nat) /\
  outcome x = Ok tt /\ totals (trace x) = [1%nat] /\
  count is_get (trace x) = 2%nat.
Proof.
  intros failing good x.
  destruct (quit_checked_after_capture "http://h/snap" 30 true "out")
    as (Hfail & Hgood & _ & _ & Hend).
  assert (H1 : failed_fetch (pl_fetch failing) = true) by reflexivity.
  destruct (Hfail failing 0%nat (mkFs [] []) H1) as [Hw _].
  destruct (Hgood good 0%nat (mkFs [] []) 1%nat eq_refl) as (_ & _ & Hb).
  destruct (Hend [failing; good; good] (mkFs [] []) 1%nat eq_refl)
    as (Hok & Htot & _).
  split; [exact H1|]. split; [exact Hw|]. split; [exact Hb|].
  split; [exact Hok|]. split; [exact Htot|]. reflexivity.
Defined.

(** ** Failures that do not end the snapshot poller *)

(** C7: a transport failure, a bad status and a decode failure, each
    followed after the sleep by the next request, and then a good image:
    four requests are made, and the one capture of the run has sequence
    number 1.  The interval is not negative ([time.sleep] takes it) and
    Ctrl-C stays away during the three sleeps. *)
Theorem failures_do_not_stop_polling stream_url interval save_frames
  show_live output_folder fs p1 p2 p3 p4 e status_code decoded frame :
  0 <= interval ->
  status_code <> 200 ->
  pl_fetch p1 = FetchError e ->
  pl_fetch p2 = Response status_code decoded ->
  pl_fetch p3 = Response 200 None ->
  pl_fetch p4 = Response 200 (Some frame) ->
  pl_sleep_interrupt p1 = false ->
  pl_sleep_interrupt p2 = false ->
  pl_sleep_interrupt p3 = false ->
  let x := capture_snapshot_stream stream_url interval save_frames show_live
             output_folder [p1; p2; p3; p4] fs in
  capture_seqs (trace x) = [1%nat] /\
  count is_get (trace x) = 4%nat /\
  exists tail,
    trace x =
      [Print (MsgEvery interval); Print MsgCtrlC;
       Get stream_url 10; Print (MsgFetchError e);
       Print (MsgWaiting interval); Sleep interval;
       Get stream_url 10; Print (MsgBadStatus status_code);
       Print (MsgWaiting interval); Sleep interval;
       Get stream_url 10; Print MsgDecodeWarning;
       Print (MsgWaiting interval); Sleep interval;
       Get stream_url 10] ++ tail.
Proof.
  intros Hint Hst H1 H2 H3 H4 S1 S2 S3. cbv zeta.
  apply Z.ltb_ge in Hint. apply Z.eqb_neq in Hst.
  rewrite capture_snapshot_stream_eq. cbv zeta.
  rewrite poll_loop_step, H1. cbv zeta. rewrite Hint, S1.
  rewrite poll_loop_step, H2. cbv zeta. rewrite Hst, Hint, S2.
  rewrite poll_loop_step, H3. cbv zeta. rewrite Hint, S3.
  rewrite poll_loop_step, H4. cbv zeta. rewrite Hint.
  cbn [Z.eqb Pos.eqb].
  destruct save_frames, show_live, (pl_write_ok p4),
    (Z.land (pl_key p4) 255 =? ord_q), (pl_sleep_interrupt p4);
    cbn [prepend trace outcome final_fs fst snd app andb poll_loop blocked];
    (split; [reflexivity|]); (split; [reflexivity|]);
    eexists; reflexivity.
Qed.

Lemma failures_do_not_stop_polling_witness :
  let stamp := "2024-01-02_03-05-05"%string in
  let x := capture_snapshot_stream "http://h/snap" 30 true false "out"
             [mkPoll (FetchError "timed out") stamp true (-1) false;
              mkPoll (Response 404 None) stamp true (-1) false;
              mkPoll (Response 200 None) stamp true (-1) false;
              mkPoll (Response 200 (Some 9%nat)) stamp true (-1) false]
             (mkFs [] []) in
  0 <= 30 /\ 404 <> 200 /\
  capture_seqs (trace x) = [1%nat] /\ count is_get (trace x) = 4%nat.
Proof.
  intros stamp x.
  assert (H1 : 0 <= 30) by lia.
  assert (H2 : 404 <> 200) by lia.
  split; [exact H1|]. split; [exact H2|].
  destruct (failures_do_not_stop_polling "http://h/snap" 30 true false "out"
              (mkFs [] [])
              (mkPoll (FetchError "timed out") stamp true (-1) false)
              (mkPoll (Response 404 None) stamp true (-1) false)
              (mkPoll (Response 200 None) stamp true (-1) false)
              (mkPoll (Response 200 (Some 9%nat)) stamp true (-1) false)
              "timed out" 404 None 9%nat H1 H2
              eq_refl eq_refl eq_refl eq_refl eq_refl eq_refl eq_refl)
    as (Hc & Hg & _).
  split; [exact Hc | exact Hg].
Defined.

(** ** Names of the files *)

(** C8: the session made at 2024-01-02_03-04-05 puts its seventh
    capture, taken at 2024-01-02_03-05-05, in
    [captured_frames/session_2024-01-02_03-04-05/frame_7_2024-01-02_03-05-05.jpg];
    a run from the entry point whose seventh capture falls on that time
    writes that file. *)
Theorem frame_path_example :
  frame_filename (session_folder "2024-01-02_03-04-05") 7
    "2024-01-02_03-05-05" =
  "captured_frames/session_2024-01-02_03-04-05/frame_7_2024-01-02_03-05-05.jpg"%string
  /\
  (let good t := mkPoll (Response 200 (Some 1%nat)) t true (-1) false in
   let sc := mkScript "2024-01-02_03-04-05" true []
               [good "2024-01-02_03-04-05"; good "2024-01-02_03-04-15";
                good "2024-01-02_03-04-25"; good "2024-01-02_03-04-35";
                good "2024-01-02_03-04-45"; good "2024-01-02_03-04-55";
                good "2024-01-02_03-05-05"] in
   let x := capture_stream "http://h/webcapture.jpg?command=snap" 10 true
              false sc (mkFs [] []) in
   hd_error (files (final_fs x)) =
   Some "captured_frames/session_2024-01-02_03-04-05/frame_7_2024-01-02_03-05-05.jpg"%string).
Proof. split; reflexivity. Qed.

(** * Further properties *)

(** ** File names *)

Module NameFacts.

Lemma append_inj_l (p a b : string) :
  (p ++ a)%string = (p ++ b)%string -> a = b.
Proof.
  induction p as [|c p IH]; cbn [append]; [auto|].
  intros H. injection H as H. auto.
Qed.

Lemma all_chars_app p a b :
  all_chars p (a ++ b) = all_chars p a && all_chars p b.
Proof.
  induction a as [|c a IH]; cbn [append all_chars]; [reflexivity|].
  now rewrite IH, andb_assoc.
Qed.

(** A decimal numeral is made of digits. *)
Lemma string_of_uint_digits d :
  all_chars is_digit (NilEmpty.string_of_uint d) = true.
Proof. induction d; cbn [NilEmpty.string_of_uint all_chars]; auto. Qed.

Lemma of_nat_digits n : all_chars is_digit (Str.of_nat n) = true.
Proof. apply string_of_uint_digits. Qed.

Lemma of_nat_inj n m : Str.of_nat n = Str.of_nat m -> n = m.
Proof.
  unfold Str.of_nat. intros H.
  apply (f_equal NilEmpty.uint_of_string) in H.
  rewrite !NilEmpty.usu in H. injection H as H.
  apply (f_equal Nat.of_uint) in H.
  now rewrite !DecimalNat.Unsigned.of_to in H.
Qed.

(** Two digit strings, each followed by an underscore, that start the
    same text are the same. *)
Lemma digits_then_underscore a b r r' :
  all_chars is_digit a = true -> all_chars is_digit b = true ->
  (a ++ String "_" r)%string = (b ++ String "_" r')%string -> a = b.
Proof.
  revert b. induction a as [|c a IH]; intros [|c' b] Ha Hb H;
    cbn [append all_chars] in *.
  - reflexivity.
  - injection H as <- _. apply andb_prop in Hb as [Hb _]. discriminate Hb.
  - injection H as -> _. apply andb_prop in Ha as [Ha _]. discriminate Ha.
  - injection H as -> H.
    apply andb_prop in Ha as [_ Ha]. apply andb_prop in Hb as [_ Hb].
    f_equal. now apply IH.
Qed.

(** In one folder, the name of a frame's file tells its sequence
    number, whatever the time stamps. *)
Lemma frame_filename_inj d n m t t' :
  frame_filename d n t = frame_filename d m t' -> n = m.
Proof.
  unfold frame_filename. intros H.
  apply append_inj_l in H.
  apply (append_inj_l "/frame_") in H.
  apply of_nat_inj.
  eapply digits_then_underscore; try apply of_nat_digits. exact H.
Qed.

End NameFacts.

(** ** Files written *)

Lemma written_app l1 l2 : written (l1 ++ l2) = written l1 ++ written l2.
Proof.
  induction l1 as [|e l1 IH]; [reflexivity|].
  destruct e as [| | | |? ? []| | | | | |]; cbn [app written];
    now rewrite IH.
Qed.

Lemma imwrite_names_app l1 l2 :
  imwrite_names (l1 ++ l2) = imwrite_names l1 ++ imwrite_names l2.
Proof.
  induction l1 as [|e l1 IH]; [reflexivity|].
  destruct e; cbn [app imwrite_names]; now rewrite IH.
Qed.

Lemma names_above_weaken d fc names :
  names_above d (S fc) names -> names_above d fc names.
Proof.
  apply Forall_impl. intros name (n & t & Hn & ->).
  exists n, t. split; [lia | reflexivity].
Qed.

(** A name numbered [S fc] is new among names numbered above [S fc]. *)
Lemma names_above_fresh d fc t names :
  names_above d (S fc) names -> ~ In (frame_filename d (S fc) t) names.
Proof.
  intros Hall Hin. unfold names_above in Hall.
  rewrite Forall_forall in Hall.
  destruct (Hall _ Hin) as (n & t' & Hn & E).
  apply NameFacts.frame_filename_inj in E. lia.
Qed.

Section ReadLoopFiles.
Variables (interval : Z) (save_frames show_live : bool).
Variable d : string.
Local Abbreviation loop :=
  (read_loop interval save_frames show_live (Some d)).

(** The files the loop leaves are those it found and those it wrote;
    it calls [cv2.imwrite] once per capture when frames are saved and
    never otherwise, each time under a new name of folder [d]. *)
Lemma read_loop_files steps : forall last fc fs,
  let x := loop steps last fc fs in
  files (final_fs x) = rev (written (trace x)) ++ files fs /\
  length (imwrite_names (trace x)) =
    (if save_frames then length (capture_seqs (trace x)) else 0%nat) /\
  names_above d fc (imwrite_names (trace x)) /\
  NoDup (imwrite_names (trace x)).
Proof.
  induction steps as [|s rest IH]; intros last fc fs; cbv zeta.
  - cbn. destruct save_frames; repeat split; constructor.
  - read_cases s.
    all: rewrite ?prepend_prepend, ?trace_prepend, ?final_fs_prepend,
           ?written_app, ?imwrite_names_app, ?capture_seqs_app.
    all: read_rest IH.
    all: destruct show_live; try destruct (rd_write_ok s).
    all: cbn [trace final_fs fst snd app written imwrite_names capture_seqs
              capture_seq rev length files] in *.
    all: try (destruct IH as (IH1 & IH2 & IH3 & IH4)).
    all: repeat split;
      try solve [ constructor
                | assumption
                | now apply names_above_weaken
                | rewrite IH1, <- ?app_assoc; reflexivity
                | rewrite IH2; reflexivity
                | constructor;
                  [ eexists; eexists; split; [apply Nat.lt_succ_diag_r
                                             | reflexivity]
                  | first [ now apply names_above_weaken | constructor ] ]
                | constructor;
                  [ first [ now apply names_above_fresh | intros [] ]
                  | first [ assumption | constructor ] ]
                | now destruct save_frames ].
Qed.
End ReadLoopFiles.

Section PollLoopFiles.
Variables (stream_url : string) (interval : Z).
Variables (save_frames show_live : bool) (d : string).
Local Abbreviation ploop :=
  (poll_loop stream_url interval save_frames show_live d).

Lemma poll_loop_files steps : forall fc fs,
  let x := ploop steps fc fs in
  files (final_fs x) = rev (written (trace x)) ++ files fs /\
  length (imwrite_names (trace x)) =
    (if save_frames then length (capture_seqs (trace x)) else 0%nat) /\
  names_above d fc (imwrite_names (trace x)) /\
  NoDup (imwrite_names (trace x)).
Proof.
  induction steps as [|s rest IH]; intros fc fs; cbv zeta.
  - cbn. destruct save_frames; repeat split; constructor.
  - poll_cases s.
    all: rewrite ?prepend_prepend, ?trace_prepend, ?final_fs_prepend,
           ?written_app, ?imwrite_names_app, ?capture_seqs_app.
    all: poll_rest IH.
    all: cbn [trace final_fs fst snd app written imwrite_names capture_seqs
              capture_seq rev length files] in *.
    all: rewrite ?written_app, ?imwrite_names_app, ?capture_seqs_app;
      cbn [trace final_fs fst snd app written imwrite_names capture_seqs
              capture_seq rev length files] in *.
    all: try (destruct IH as (IH1 & IH2 & IH3 & IH4)).
    all: repeat split;
      try solve [ constructor
                | assumption
                | now apply names_above_weaken
                | rewrite IH1, <- ?app_assoc; reflexivity
                | rewrite IH2; reflexivity
                | constructor;
                  [ eexists; eexists; split; [apply Nat.lt_succ_diag_r
                                             | reflexivity]
                  | first [ now apply names_above_weaken | constructor ] ]
                | constructor;
                  [ first [ now apply names_above_fresh | intros [] ]
                  | first [ assumption | constructor ] ]
                | now destruct save_frames ].
Qed.
End PollLoopFiles.

Lemma no_imwrite tr :
  count is_imwrite tr = 0%nat -> imwrite_names tr = [] /\ written tr = [].
Proof.
  unfold count. induction tr as [|e tr IH]; [now split|].
  destruct e as [| | | |? ? []| | | | | |];
    cbn [filter is_imwrite length imwrite_names written];
    try exact IH; discriminate.
Qed.

(** The same, for a run from the entry point. *)
Lemma capture_stream_files stream_url interval save_frames show_live sc fs :
  let x := capture_stream stream_url interval save_frames show_live sc fs in
  let d := session_folder (session_timestamp sc) in
  files (final_fs x) = rev (written (trace x)) ++ files fs /\
  length (imwrite_names (trace x)) =
    (if save_frames then length (capture_seqs (trace x)) else 0%nat) /\
  names_above d 0 (imwrite_names (trace x)) /\
  NoDup (imwrite_names (trace x)).
Proof.
  cbv zeta. destruct save_frames.
  2:{ destruct (capture_stream_fs stream_url interval false show_live sc fs)
        as (_ & _ & _ & _ & Hoff).
      destruct (Hoff eq_refl) as [Hc ->].
      destruct (no_imwrite _ Hc) as [-> ->].
      repeat split; constructor. }
  rewrite capture_stream_eq. cbv zeta.
  set (d := session_folder (session_timestamp sc)).
  set (fs1 := if true && negb _ then _ else fs).
  assert (Hfs1 : files fs1 = files fs)
    by (subst fs1; now destruct (true && negb _)).
  set (setup := (if existsb _ (dirs fs) then [] else [Makedirs d]) ++ _).
  assert (Hsetup : written setup = [] /\ imwrite_names setup = [] /\
                   capture_seqs setup = []).
  { subst setup. now destruct (existsb _ (dirs fs)). }
  destruct Hsetup as (Hs1 & Hs2 & Hs3).
  rewrite trace_prepend, final_fs_prepend, written_app, imwrite_names_app,
    capture_seqs_app, Hs1, Hs2, Hs3. cbn [app].
  destruct (is_snapshot stream_url).
  - rewrite trace_prepend, final_fs_prepend.
    cbn [app written imwrite_names capture_seqs capture_seq].
    rewrite capture_snapshot_stream_eq. cbv zeta.
    pose proof (poll_loop_files stream_url interval true show_live d
                  (polls sc) 0 fs1) as (H1 & H2 & H3 & H4).
    cbv zeta in H1, H2, H3, H4. rewrite Hfs1 in H1.
    destruct (poll_loop _ _ _ _ _ (polls sc) 0%nat fs1) as [[tr fs2] r].
    cbn [trace outcome final_fs fst snd] in *.
    destruct r as [[[|[]] n]|e|];
      cbn [prepend trace final_fs outcome fst snd app written imwrite_names
           capture_seqs capture_seq];
      rewrite ?written_app, ?imwrite_names_app, ?capture_seqs_app;
      cbn [written imwrite_names capture_seqs capture_seq];
      rewrite ?app_nil_r; auto.
  - destruct (is_opened sc).
    + pose proof (read_loop_files interval true show_live d (reads sc) 0 0
                    fs1) as (H1 & H2 & H3 & H4).
      cbv zeta in H1, H2, H3, H4. rewrite Hfs1 in H1.
      destruct (read_loop _ _ _ _ (reads sc) 0 0%nat fs1) as [[tr fs2] r].
      cbn [trace outcome final_fs fst snd] in *.
      destruct r as [n|e|];
        cbn [prepend trace final_fs outcome fst snd app written
             imwrite_names capture_seqs capture_seq];
        rewrite ?written_app, ?imwrite_names_app, ?capture_seqs_app;
        cbn [written imwrite_names capture_seqs capture_seq];
        rewrite ?app_nil_r; auto.
    + cbn. rewrite Hfs1. repeat split; constructor.
Qed.

(** ** The live view and the key of the continuous capturer *)

Lemma shown_app l1 l2 : shown (l1 ++ l2) = shown l1 ++ shown l2.
Proof.
  induction l1 as [|e l1 IH]; [reflexivity|].
  destruct e; cbn [app shown]; now rewrite IH.
Qed.

Lemma frames_read_app l1 l2 :
  frames_read (l1 ++ l2) = frames_read l1 ++ frames_read l2.
Proof.
  induction l1 as [|e l1 IH]; [reflexivity|].
  destruct e as [| | |[f|]| | | | | | |]; cbn [app frames_read];
    now rewrite IH.
Qed.

Section ReadLoopView.
Variables (interval : Z) (save_frames show_live : bool).
Variable output_folder : option string.
Local Abbreviation loop :=
  (read_loop interval save_frames show_live output_folder).

(** Every frame read is shown when the live view is on, captured or
    not, and the key is polled for 1 ms after every frame read, live
    view or not.  The frames flagged as captured are the captures. *)
Lemma read_loop_view steps : forall last fc fs,
  (save_frames = true -> output_folder <> None) ->
  let tr := trace (loop steps last fc fs) in
  shown tr = (if show_live then frames_read tr else []) /\
  count is_waitkey tr = length (frames_read tr) /\
  (forall ms, In (WaitKey ms) tr -> ms = 1) /\
  length (filter (fun b : bool => b) (capture_flags tr)) =
    length (capture_seqs tr).
Proof.
  induction steps as [|s rest IH]; intros last fc fs Hof; cbv zeta.
  - cbn. destruct show_live; repeat split; tauto.
  - read_cases s.
    all: try (exfalso; now apply Hof).
    all: rewrite ?prepend_prepend, ?trace_prepend.
    all: try match goal with
         | |- context [read_loop ?i ?sv ?sh ?o ?r ?a ?b ?c] =>
             specialize (IH a b c Hof); cbv zeta in IH;
             pose proof (read_loop_head i sv sh o r a b c) as Hhead;
             destruct (read_loop i sv sh o r a b c) as [[tr2 fs2] r2]
         end.
    all: destruct show_live;
      cbn [trace fst snd app shown frames_read count filter is_waitkey
           length capture_flags captured_before_read is_capture capture_seq
           capture_seqs orb] in *;
      rewrite ?Hhead; cbn [filter length].
    all: try (destruct IH as (IH1 & IH2 & IH3 & IH4)).
    all: repeat split; try reflexivity; try (f_equal; assumption);
      try assumption.
    all: try (intros ms Hin; cbn [In] in Hin;
              repeat (destruct Hin as [Hin|Hin]; try discriminate Hin;
                      try (injection Hin as <-; reflexivity));
              first [ contradiction | now apply IH3 ]).
Qed.
End ReadLoopView.

(** ** Requests, sleeps and the ways out of the snapshot poller *)

Lemma cadence_app l1 l2 : cadence (l1 ++ l2) = cadence l1 ++ cadence l2.
Proof. unfold cadence. apply filter_app. Qed.

Section PollLoopCadence.
Variables (stream_url : string) (interval : Z).
Variables (save_frames show_live : bool) (d : string).
Local Abbreviation ploop :=
  (poll_loop stream_url interval save_frames show_live d).

(** Requests and sleeps take turns, starting with a request: every
    request goes to the address with a timeout of 10 s, every sleep
    lasts the whole interval. *)
Lemma poll_loop_cadence steps : forall fc fs,
  exists k,
    cadence (trace (ploop steps fc fs)) =
    firstn k (rounds stream_url interval (length steps)).
Proof.
  induction steps as [|s rest IH]; intros fc fs.
  - now exists 0%nat.
  - poll_cases s.
    all: rewrite ?prepend_prepend, ?trace_prepend, ?cadence_app.
    all: try match goal with
         | |- context [poll_loop ?u ?i ?sv ?sh ?o ?r ?a ?b] =>
             destruct (IH a b) as [k Hk]; rewrite Hk;
             exists (S (S k)); reflexivity
         end.
    all: first [ now exists 1%nat | now exists 2%nat ].
Qed.

(** Frames are shown, and the key polled, only with the live view on
    and then once per capture; nothing is read from a video stream. *)
Lemma poll_loop_view steps : forall fc fs,
  let tr := trace (ploop steps fc fs) in
  count is_imshow tr =
    (if show_live then length (capture_seqs tr) else 0%nat) /\
  count is_read tr = 0%nat /\ count is_video_capture tr = 0%nat /\
  count is_release tr = 0%nat.
Proof.
  induction steps as [|s rest IH]; intros fc fs; cbv zeta.
  - cbn. now destruct show_live.
  - poll_cases s.
    all: rewrite ?prepend_prepend, ?trace_prepend, ?count_app,
           ?capture_seqs_app.
    all: poll_rest IH.
    all: cbn [trace fst snd app count filter is_imshow is_read
              is_video_capture is_release capture_seqs capture_seq length]
           in *.
    all: rewrite ?count_app, ?capture_seqs_app;
      cbn [trace fst snd app count filter is_imshow is_read
              is_video_capture is_release capture_seqs capture_seq length]
           in *.
    all: try (destruct IH as (IH1 & IH2 & IH3 & IH4)).
    all: repeat split; try reflexivity; lia.
Qed.

(** The loop is left by [q], which takes the live view, by Ctrl-C, or
    by the [ValueError] of a negative sleep. *)
Lemma poll_loop_exits steps : forall fc fs ex n,
  outcome (ploop steps fc fs) = Ok (ex, n) ->
  match ex with
  | Broke => show_live = true
  | Threw e =>
      (e = KeyboardInterrupt /\ existsb interrupted steps = true) \/
      (e = ValueError /\ interval < 0)
  end.
Proof.
  induction steps as [|s rest IH]; intros fc fs ex n; [discriminate|].
  unfold interrupted in *. cbn [existsb].
  poll_cases s.
  all: rewrite ?outcome_prepend; cbn [outcome snd].
  all: intros H.
  all: first
    [ apply IH in H; destruct ex as [|e']; [exact H|];
      destruct H as [[-> H]|[-> H]];
      [ left; split; [reflexivity | rewrite H; now rewrite ?orb_true_r]
      | right; now split ]
    | injection H as <- <-;
      first [ reflexivity
            | left; split; reflexivity
            | right; split; [reflexivity | now apply Z.ltb_lt] ] ].
Qed.

End PollLoopCadence.

(** The events and the result of [capture_snapshot_stream], around
    those of its loop: two lines before, and after it what the [except]
    and [finally] clauses do. *)
Lemma capture_snapshot_stream_shape stream_url interval save_frames show_live
  output_folder steps fs :
  let x := capture_snapshot_stream stream_url interval save_frames show_live
             output_folder steps fs in
  let l := poll_loop stream_url interval save_frames show_live output_folder
             steps 0 fs in
  exists post,
    trace x = [Print (MsgEvery interval); Print MsgCtrlC] ++ trace l ++ post /\
    match outcome l with
    | Ok (Broke, n) =>
        post = [DestroyAllWindows; Print (MsgTotal n)] /\ outcome x = Ok tt
    | Ok (Threw KeyboardInterrupt, n) =>
        post = [Print MsgStopping; DestroyAllWindows; Print (MsgTotal n)] /\
        outcome x = Ok tt
    | Ok (Threw e, n) =>
        post = [DestroyAllWindows; Print (MsgTotal n)] /\ outcome x = Err e
    | Err e => post = [] /\ outcome x = Err e
    | Blocked => post = [] /\ outcome x = Blocked
    end.
Proof.
  cbv zeta. rewrite capture_snapshot_stream_eq. cbv zeta.
  destruct (poll_loop _ _ _ _ _ steps 0%nat fs) as [[tr fs1] r].
  cbn [trace outcome final_fs fst snd].
  destruct r as [[[|[]] n]|e|]; cbn [prepend trace outcome fst snd app];
    first [ eexists; split; [reflexivity | split; reflexivity]
          | exists []; rewrite app_nil_r; split; [reflexivity|];
            split; reflexivity ].
Qed.

(** Splits a run of [capture_snapshot_stream] into the run of its loop
    and what comes after, one case per way out of the loop. *)
Ltac snapshot_shape u i sv sh o steps fs :=
  let post := fresh "post" in
  let Htr := fresh "Htr" in
  let Hout := fresh "Hout" in
  let Hl := fresh "Hl" in
  destruct (capture_snapshot_stream_shape u i sv sh o steps fs)
    as (post & Htr & Hout);
  cbv zeta in Htr, Hout;
  destruct (outcome (poll_loop u i sv sh o steps 0 fs))
    as [[[|[]] ?n]|?e|] eqn:Hl;
  destruct Hout as [-> Hout]; rewrite Htr, ?Hout.

(** X1: in snapshot mode requests and sleeps take turns from the first
    request on; each request goes to the address with a timeout of
    10 s and each sleep lasts the whole interval, whatever the request
    before it took or gave. *)
Theorem poll_cadence stream_url interval save_frames show_live output_folder
  steps fs :
  exists k,
    cadence (trace (capture_snapshot_stream stream_url interval save_frames
                      show_live output_folder steps fs)) =
    firstn k (rounds stream_url interval (length steps)).
Proof.
  destruct (poll_loop_cadence stream_url interval save_frames show_live
              output_folder steps 0 fs) as [k Hk].
  exists k.
  snapshot_shape stream_url interval save_frames show_live output_folder
    steps fs.
  all: rewrite !cadence_app, Hk; cbn [cadence filter is_get is_sleep orb app];
    now rewrite app_nil_r.
Qed.



(** How the snapshot poller ends. *)
Lemma capture_snapshot_stream_ends stream_url interval save_frames show_live
  output_folder steps fs :
  let x := capture_snapshot_stream stream_url interval save_frames show_live
             output_folder steps fs in
  (outcome x <> Blocked ->
   exists tr0,
     trace x = tr0 ++ [DestroyAllWindows;
                       Print (MsgTotal (length (capture_seqs (trace x))))]) /\
  (outcome x = Ok tt ->
   show_live = true \/ existsb interrupted steps = true).
Proof.
  cbv zeta.
  pose proof (poll_loop_seqs stream_url interval save_frames show_live
                output_folder steps 0 fs) as [_ Hn].
  pose proof (poll_loop_exits stream_url interval save_frames show_live
                output_folder steps 0 fs) as Hex.
  pose proof (poll_loop_no_err stream_url interval save_frames show_live
                output_folder steps 0 fs) as Hne.
  cbv zeta in Hn.
  snapshot_shape stream_url interval save_frames show_live output_folder
    steps fs.
  all: try (exfalso; now apply (Hne e)).
  all: try specialize (Hn _ _ eq_refl); try specialize (Hex _ _ eq_refl);
    cbn [Nat.add] in *.
  all: rewrite ?capture_seqs_app;
    cbn [capture_seqs capture_seq app]; rewrite ?app_nil_r, <- ?Hn.
  all: split; [intros Hb | intros Ho];
    try discriminate; try (exfalso; now apply Hb).
  all: try (destruct Hex as [[? ?]|[? ?]]; try discriminate).
  all: try solve [ now left | now right ].
  all: match goal with
       | |- exists _, _ :: _ :: ?t ++ [?a; ?b] = _ =>
           exists ([Print (MsgEvery interval); Print MsgCtrlC] ++ t);
           now rewrite <- app_assoc
       | |- exists _, _ :: _ :: ?t ++ [?c; ?a; ?b] = _ =>
           exists ([Print (MsgEvery interval); Print MsgCtrlC] ++ t ++ [c]);
           now rewrite <- !app_assoc
       end.
Qed.


(** X4: a negative interval ends the snapshot poller within its first
    pass: one request is made and the sleep that would follow is
    refused, so no sleep takes place and the run does not go on.  When
    that first request fails the run ends with the [ValueError].  The
    windows are closed and the total is printed all the same. *)
Theorem negative_interval_stops_poller stream_url interval save_frames
  show_live output_folder s rest fs :
  interval < 0 ->
  let x := capture_snapshot_stream stream_url interval save_frames show_live
             output_folder (s :: rest) fs in
  count is_get (trace x) = 1%nat /\ count is_sleep (trace x) = 0%nat /\
  outcome x <> Blocked /\
  (failed_fetch (pl_fetch s) = true -> outcome x = Err ValueError) /\
  exists tr0,
    trace x = tr0 ++ [DestroyAllWindows;
                      Print (MsgTotal (length (capture_seqs (trace x))))].
Proof.
  intros Hneg. cbv zeta.
  assert (H : count is_get
                (trace (capture_snapshot_stream stream_url interval
                          save_frames show_live output_folder (s :: rest)
                          fs)) = 1%nat /\
              count is_sleep
                (trace (capture_snapshot_stream stream_url interval
                          save_frames show_live output_folder (s :: rest)
                          fs)) = 0%nat /\
              outcome (capture_snapshot_stream stream_url interval
                         save_frames show_live output_folder (s :: rest) fs)
              <> Blocked /\
              (failed_fetch (pl_fetch s) = true ->
               outcome (capture_snapshot_stream stream_url interval
                          save_frames show_live output_folder (s :: rest)
                          fs) = Err ValueError)).
  { apply Z.ltb_lt in Hneg.
    rewrite capture_snapshot_stream_eq. cbv zeta.
    rewrite poll_loop_step. cbv zeta. rewrite Hneg. unfold failed_fetch.
    destruct (pl_fetch s) as [e| |status_code [frame|]];
      try destruct (status_code =? 200) eqn:Hst;
      destruct save_frames, show_live;
      try destruct (Z.land (pl_key s) 255 =? ord_q);
      cbn [prepend trace outcome final_fs fst snd app andb failed_fetch
           negb orb];
      repeat split; try discriminate; try reflexivity. }
  destruct H as (H1 & H2 & H3 & H4).
  repeat (split; [assumption|]).
  exact (proj1 (capture_snapshot_stream_ends stream_url interval save_frames
                  show_live output_folder (s :: rest) fs) H3).
Qed.

Lemma negative_interval_stops_poller_witness :
  let s := mkPoll (Response 404 None) "a" true (-1) false in
  let x := capture_snapshot_stream "http://h/snap" (-5) true true "out"
             [s; s; s] (mkFs [] []) in
  -5 < 0 /\ count is_get (trace x) = 1%nat /\ outcome x = Err ValueError.
Proof.
  intros s x.
  assert (H : -5 < 0) by lia.
  destruct (negative_interval_stops_poller "http://h/snap" (-5) true true
              "out" s [s; s] (mkFs [] []) H) as (Hg & _ & _ & He & _).
  split; [exact H|]. split; [exact Hg | exact (He eq_refl)].
Defined.

(** What the snapshot poller shows and polls. *)
Lemma capture_snapshot_stream_view stream_url interval save_frames show_live
  output_folder steps fs :
  let tr := trace (capture_snapshot_stream stream_url interval save_frames
                     show_live output_folder steps fs) in
  count is_imshow tr =
    (if show_live then length (capture_seqs tr) else 0%nat) /\
  count is_waitkey tr =
    (if show_live then length (capture_seqs tr) else 0%nat) /\
  count is_read tr = 0%nat /\ count is_video_capture tr = 0%nat /\
  count is_release tr = 0%nat.
Proof.
  cbv zeta.
  destruct (poll_loop_view stream_url interval save_frames show_live
              output_folder steps 0 fs) as (H1 & H2 & H3 & H4).
  destruct (poll_loop_waitkey stream_url interval save_frames show_live
              output_folder steps 0 fs) as (H5 & _).
  cbv zeta in H1, H5.
  snapshot_shape stream_url interval save_frames show_live output_folder
    steps fs.
  all: rewrite !count_app, !capture_seqs_app, H1, H2, H3, H4, H5.
  all: cbn [count filter is_imshow is_waitkey is_read is_video_capture
            is_release length capture_seqs capture_seq app Nat.add].
  all: rewrite ?app_nil_r, ?Nat.add_0_r; repeat split.
Qed.

(** X5: the snapshot poller shows a frame only when it has captured it:
    with the live view on there is one [imshow] and one key poll per
    capture, with it off none; and it never touches a video stream. *)
Theorem poller_shows_only_captures stream_url interval save_frames show_live
  output_folder steps fs :
  let tr := trace (capture_snapshot_stream stream_url interval save_frames
                     show_live output_folder steps fs) in
  count is_imshow tr =
    (if show_live then length (capture_seqs tr) else 0%nat) /\
  count is_waitkey tr =
    (if show_live then length (capture_seqs tr) else 0%nat) /\
  count is_read tr = 0%nat /\ count is_video_capture tr = 0%nat /\
  count is_release tr = 0%nat.
Proof.
  exact
    (capture_snapshot_stream_view stream_url interval save_frames show_live
       output_folder steps fs).
Qed.

(** ** The continuous capturer from the entry point *)

(** The events and the result of [capture_stream] on a stream that
    opens, around those of its loop. *)
Lemma capture_stream_shape stream_url interval save_frames show_live sc fs :
  is_snapshot stream_url = false ->
  is_opened sc = true ->
  let x := capture_stream stream_url interval save_frames show_live sc fs in
  let d := session_folder (session_timestamp sc) in
  exists pre fs1 post,
    let l := read_loop interval save_frames show_live
               (if save_frames then Some d else None) (reads sc) 0 0 fs1 in
    forallb is_setup pre = true /\
    trace x = pre ++ trace l ++ post /\
    match outcome l with
    | Ok n =>
        post = [Release; DestroyAllWindows; Print (MsgTotal n)] /\
        outcome x = Ok tt
    | Err e => post = [] /\ outcome x = Err e
    | Blocked => post = [] /\ outcome x = Blocked
    end.
Proof.
  intros Hsnap Hopen. cbv zeta.
  rewrite capture_stream_eq, Hsnap, Hopen. cbv zeta.
  set (d := session_folder (session_timestamp sc)).
  set (fs1 := if save_frames && negb _ then _ else fs).
  match goal with
  | |- context [prepend ?a (prepend ?b _)] => exists (a ++ b)
  end.
  exists fs1.
  destruct (read_loop _ _ _ _ (reads sc) 0 0%nat fs1) as [[tr fs2] r].
  rewrite prepend_prepend, trace_prepend, outcome_prepend.
  cbn [trace outcome final_fs fst snd].
  assert (Hpre : forall (b c : bool) (a : list event),
    a = (if b then (if c then [] else [Makedirs d]) ++ [Print (MsgSavedTo d)]
         else []) ->
    forallb is_setup
      (a ++ [Print (MsgConnecting stream_url); VideoCapture stream_url;
             Print (MsgEvery interval)]) = true)
    by (intros [] [] a ->; reflexivity).
  destruct r as [n|e|]; cbn [trace outcome fst snd];
    first [ eexists; split; [now eapply Hpre|];
            split; [reflexivity | split; reflexivity]
          | exists []; rewrite app_nil_r; split; [now eapply Hpre|];
            split; [reflexivity|]; split; reflexivity ].
Qed.

(** Splits a run of [capture_stream] on a stream that opens into the
    run of its loop and what stands around it. *)
Ltac stream_shape Hsnap Hopen :=
  let pre := fresh "pre" in
  let fs1 := fresh "fs1" in
  let post := fresh "post" in
  let Hpre := fresh "Hpre" in
  let Htr := fresh "Htr" in
  let Hout := fresh "Hout" in
  let Hl := fresh "Hl" in
  let Hof := fresh "Hof" in
  match goal with
  | |- context [capture_stream ?u ?i ?sv ?sh ?sc ?fs] =>
      destruct (capture_stream_shape u i sv sh sc fs Hsnap Hopen)
        as (pre & fs1 & post & Hpre & Htr & Hout);
      cbv zeta in Htr, Hout;
      assert (Hof : sv = true ->
                    (if sv then Some (session_folder (session_timestamp sc))
                     else None) <> None)
        by (intros ->; discriminate);
      pose proof (fun e => read_loop_no_err i sv sh _ (reads sc) 0 0 fs1 e
                             Hof) as Hne;
      destruct (outcome (read_loop i sv sh
                  (if sv then Some (session_folder (session_timestamp sc))
                   else None) (reads sc) 0 0 fs1))
        as [?n|?e|] eqn:Hl;
      [ | exfalso; now apply (Hne e) | ];
      destruct Hout as [-> Hout]; rewrite Htr, ?Hout
  end.

(** What stands before the loop shows, reads and captures nothing. *)
Lemma setup_silent pre :
  forallb is_setup pre = true ->
  shown pre = [] /\ frames_read pre = [] /\ capture_seqs pre = [] /\
  totals pre = [] /\ capture_flags pre = [] /\
  count is_waitkey pre = 0%nat /\ count is_release pre = 0%nat /\
  count is_destroy pre = 0%nat /\
  forall tr, capture_flags (pre ++ tr) = capture_flags tr.
Proof.
  induction pre as [|e pre IH]; [now repeat split|].
  cbn [forallb]. intros H. apply andb_prop in H as [He H].
  destruct (IH H) as (H1 & H2 & H3 & H4 & H5 & H6 & H7 & H8 & H9).
  unfold count in *.
  destruct e as [[]| | | | | | | | | |]; try discriminate He;
    cbn [shown frames_read capture_seqs capture_seq totals capture_flags
         filter is_waitkey is_release is_destroy app];
    repeat split; assumption.
Qed.

Section ReadLoopAll.
Variables (interval : Z) (save_frames show_live : bool).
Variable output_folder : option string.
Local Abbreviation loop :=
  (read_loop interval save_frames show_live output_folder).

(** With an interval of zero or less and a clock that does not run
    backwards, every frame read is captured. *)
Lemma read_loop_all_captured steps : forall last fc fs,
  (save_frames = true -> output_folder <> None) ->
  interval <= 0 ->
  StronglySorted Z.le (last :: map rd_time steps) ->
  Forall (fun b => b = true) (capture_flags (trace (loop steps last fc fs))).
Proof.
  induction steps as [|s rest IH]; intros last fc fs Hof Hint Hsorted.
  - constructor.
  - cbn [map] in Hsorted.
    apply StronglySorted_inv in Hsorted as [Hrest Hlast].
    apply Forall_inv in Hlast.
    read_cases s.
    all: try (exfalso; now apply Hof).
    all: try (apply Z.leb_gt in Hdue; lia).
    all: rewrite ?prepend_prepend, ?trace_prepend.
    all: try match goal with
         | |- context [read_loop ?i ?sv ?sh ?o ?r ?a ?b ?c] =>
             specialize (IH a b c Hof Hint Hrest)
         end.
    all: destruct show_live;
      cbn [trace fst snd app capture_flags captured_before_read
           is_capture capture_seq orb] in *.
    all: repeat constructor; assumption.
Qed.
End ReadLoopAll.

Lemma count_zero p tr e : count p tr = 0%nat -> In e tr -> p e = false.
Proof.
  unfold count. intros Hc Hin.
  destruct (p e) eqn:E; [|reflexivity].
  assert (Hf : In e (filter p tr)) by (apply filter_In; now split).
  destruct (filter p tr); [contradiction | discriminate].
Qed.

(** X6: in continuous mode every frame read is shown when the live view
    is on, whether it is captured or skipped, and none is shown when it
    is off; after every frame read the key is polled, for 1 ms, also
    with the live view off. *)
Theorem every_frame_shown stream_url interval save_frames show_live sc fs :
  is_snapshot stream_url = false ->
  let tr := trace (capture_stream stream_url interval save_frames show_live
                     sc fs) in
  shown tr = (if show_live then frames_read tr else []) /\
  count is_waitkey tr = length (frames_read tr) /\
  (forall ms, In (WaitKey ms) tr -> ms = 1).
Proof.
  intros Hsnap. cbv zeta.
  destruct (is_opened sc) eqn:Hopen.
  2:{ rewrite capture_stream_eq, Hsnap, Hopen. cbv zeta.
      assert (G : forall (b c : bool),
        let tr := (if b
                   then (if c then []
                         else [Makedirs (session_folder
                                           (session_timestamp sc))])
                          ++ [Print (MsgSavedTo
                                       (session_folder
                                          (session_timestamp sc)))]
                   else [])
                  ++ [Print (MsgConnecting stream_url);
                      VideoCapture stream_url; Print MsgOpenError] in
        shown tr = (if show_live then frames_read tr else []) /\
        count is_waitkey tr = length (frames_read tr) /\
        (forall ms, In (WaitKey ms) tr -> ms = 1)).
      { intros [] []; cbn; destruct show_live; repeat split; intros ms H;
          repeat (destruct H as [H|H]; try discriminate H); contradiction. }
      apply G. }
  stream_shape Hsnap Hopen.
  all: destruct (setup_silent _ Hpre)
         as (P1 & P2 & _ & _ & _ & P6 & _).
  all: match goal with
       | |- context [read_loop ?i ?sv ?sh ?o ?r ?a ?b ?c] =>
           destruct (read_loop_view i sv sh o r a b c Hof)
             as (H1 & H2 & H3 & _);
           set (l := trace (read_loop i sv sh o r a b c)) in *
       end.
  all: rewrite !shown_app, !frames_read_app, !count_app, H1, H2, P1, P2, P6.
  all: cbn [shown frames_read count filter is_waitkey length app].
  all: rewrite ?app_nil_r, ?Nat.add_0_r.
  all: split; [now destruct show_live | split; [reflexivity|]].
  all: intros ms H; apply in_app_or in H as [H|H];
    [ apply (count_zero _ _ _ P6) in H; discriminate H
    | first [ now apply H3
            | apply in_app_or in H as [H|H]; [now apply H3|];
              cbn in H;
              repeat (destruct H as [H|H]; try discriminate H);
              contradiction ] ].
Qed.

Lemma every_frame_shown_witness :
  let sc := mkScript "2024-01-02_03-04-05" true
              [mkRead (Some 1%nat) 100 "a" true (-1);
               mkRead (Some 2%nat) 110 "b" true (-1);
               mkRead (Some 3%nat) 120 "c" true 113] [] in
  let tr := trace (capture_stream "rtsp://h/live" 30 false true sc
                     (mkFs [] [])) in
  is_snapshot "rtsp://h/live" = false /\
  shown tr = [1; 2; 3]%nat /\ capture_seqs tr = [1%nat] /\
  count is_waitkey tr = 3%nat.
Proof.
  intros sc tr.
  assert (H : is_snapshot "rtsp://h/live" = false) by reflexivity.
  destruct (every_frame_shown "rtsp://h/live" 30 false true sc (mkFs [] [])
              H) as (Hs & Hw & _).
  split; [exact H|]. split; [exact Hs|]. split; [reflexivity | exact Hw].
Defined.

(** The flagged frames of a continuous run are its captures. *)
Lemma capture_stream_flag_count stream_url interval save_frames
  show_live sc fs :
  is_snapshot stream_url = false ->
  let tr := trace (capture_stream stream_url interval save_frames show_live
                     sc fs) in
  length (filter (fun b : bool => b) (capture_flags tr)) =
  length (capture_seqs tr).
Proof.
  intros Hsnap. cbv zeta.
  destruct (is_opened sc) eqn:Hopen.
  2:{ rewrite capture_stream_eq, Hsnap, Hopen. cbv zeta.
      destruct save_frames; [destruct (existsb _ (dirs fs))|]; reflexivity. }
  stream_shape Hsnap Hopen.
  all: destruct (setup_silent _ Hpre)
         as (_ & _ & P3 & _ & _ & _ & _ & _ & P9).
  all: match goal with
       | |- context [read_loop ?i ?sv ?sh ?o ?r ?a ?b ?c] =>
           destruct (read_loop_view i sv sh o r a b c Hof)
             as (_ & _ & _ & H4);
           set (l := trace (read_loop i sv sh o r a b c)) in *
       end.
  all: rewrite P9, capture_flags_quiet by reflexivity.
  all: rewrite !capture_seqs_app, H4, P3, !length_app.
  all: cbn; lia.
Qed.



(** X8: with an interval of zero or less, on a clock that starts at 0
    or later and does not run backwards, the continuous capturer
    captures every frame it reads. *)
Theorem nonpositive_interval_captures_all stream_url interval save_frames
  show_live sc fs :
  is_snapshot stream_url = false ->
  interval <= 0 ->
  StronglySorted Z.le (0 :: map rd_time (reads sc)) ->
  let tr := trace (capture_stream stream_url interval save_frames show_live
                     sc fs) in
  Forall (fun b => b = true) (capture_flags tr) /\
  length (capture_seqs tr) = length (frames_read tr).
Proof.
  intros Hsnap Hint Hsorted. cbv zeta.
  pose proof (capture_stream_flag_count stream_url interval save_frames
                show_live sc fs Hsnap) as Hcount.
  cbv zeta in Hcount.
  assert (Hlen : forall tr, length (capture_flags tr) = length (frames_read tr)).
  { induction tr as [|e tr IH]; [reflexivity|].
    destruct e as [| | |[f|]| | | | | | |];
      cbn [capture_flags frames_read length]; auto. }
  assert (Hall : Forall (fun b => b = true)
                   (capture_flags
                      (trace (capture_stream stream_url interval save_frames
                                show_live sc fs)))).
  { destruct (is_opened sc) eqn:Hopen.
    2:{ rewrite capture_stream_eq, Hsnap, Hopen. cbv zeta.
        destruct save_frames; [destruct (existsb _ (dirs fs))|];
          constructor. }
    stream_shape Hsnap Hopen.
    all: destruct (setup_silent _ Hpre)
           as (_ & _ & _ & _ & _ & _ & _ & _ & P9).
    all: rewrite P9, ?capture_flags_quiet by reflexivity.
    all: rewrite ?app_nil_r.
    all: now apply read_loop_all_captured. }
  split; [exact Hall|].
  rewrite <- Hcount, <- Hlen. f_equal.
  assert (G : forall l : list bool,
             Forall (fun b => b = true) l -> filter (fun b => b) l = l).
  { induction 1 as [|b l -> _ IH]; [reflexivity|].
    cbn [filter]. now rewrite IH. }
  now apply G.
Qed.

Lemma nonpositive_interval_captures_all_witness :
  let sc := mkScript "2024-01-02_03-04-05" true
              [mkRead (Some 1%nat) 100 "a" true (-1);
               mkRead (Some 2%nat) 100 "b" true (-1);
               mkRead (Some 3%nat) 101 "c" true (-1)] [] in
  let tr := trace (capture_stream "rtsp://h/live" 0 false false sc
                     (mkFs [] [])) in
  is_snapshot "rtsp://h/live" = false /\ 0 <= 0 /\
  capture_flags tr = [true; true; true] /\
  length (capture_seqs tr) = length (frames_read tr).
Proof.
  intros sc tr.
  assert (H1 : is_snapshot "rtsp://h/live" = false) by reflexivity.
  assert (H2 : 0 <= 0) by lia.
  assert (H3 : StronglySorted Z.le (0 :: map rd_time (reads sc)))
    by (cbn; repeat first [ apply SSorted_nil | apply SSorted_cons
                          | apply Forall_nil | apply Forall_cons ]; lia).
  destruct (nonpositive_interval_captures_all "rtsp://h/live" 0 false false
              sc (mkFs [] []) H1 H2 H3) as [_ Hn].
  split; [exact H1|]. split; [exact H2|]. split; [reflexivity | exact Hn].
Defined.

(** X9: when the stream does not open, the continuous capturer returns
    without releasing the stream, closing windows or printing a total.
    When the stream opens and [capture_stream] returns, as it does
    after a failed read or after [q], its last acts are the release of
    the stream, the closing of the windows and the number of captures
    as the total. *)
Theorem stream_cleanup stream_url interval save_frames show_live sc fs :
  is_snapshot stream_url = false ->
  let x := capture_stream stream_url interval save_frames show_live sc fs in
  (is_opened sc = false ->
   outcome x = Ok tt /\
   count is_release (trace x) = 0%nat /\
   count is_destroy (trace x) = 0%nat /\ totals (trace x) = []) /\
  (is_opened sc = true ->
   outcome x = Ok tt ->
   exists tr0,
     trace x = tr0 ++ [Release; DestroyAllWindows;
                       Print (MsgTotal (length (capture_seqs (trace x))))]).
Proof.
  intros Hsnap. cbv zeta.
  destruct (is_opened sc) eqn:Hopen.
  2:{ rewrite capture_stream_eq, Hsnap, Hopen. cbv zeta.
      split; [intros _|discriminate].
      destruct save_frames; [destruct (existsb _ (dirs fs))|];
        cbn; repeat split. }
  pose proof (read_loop_seqs interval save_frames show_live
                (if save_frames
                 then Some (session_folder (session_timestamp sc))
                 else None) (reads sc) 0 0) as Hseq.
  stream_shape Hsnap Hopen.
  all: split; [discriminate|]; intros _ Hb.
  2:{ discriminate Hb. }
  destruct (setup_silent _ Hpre) as (_ & _ & P3 & _).
  destruct (Hseq fs1) as [_ Hn]. cbv zeta in Hn.
  specialize (Hn _ Hl). cbn [Nat.add] in Hn.
  rewrite !capture_seqs_app, P3. cbn [capture_seqs capture_seq app].
  rewrite app_nil_r, <- Hn.
  eexists. rewrite app_assoc. reflexivity.
Qed.

Lemma stream_cleanup_witness :
  let sc := mkScript "2024-01-02_03-04-05" true
              [mkRead (Some 1%nat) 100 "a" true (-1);
               mkRead (Some 2%nat) 140 "b" true 113] [] in
  let x := capture_stream "rtsp://h/live" 30 true true sc (mkFs [] []) in
  is_snapshot "rtsp://h/live" = false /\ is_opened sc = true /\
  outcome x = Ok tt /\ totals (trace x) = [2%nat] /\
  count is_release (trace x) = 1%nat.
Proof.
  intros sc x.
  assert (H1 : is_snapshot "rtsp://h/live" = false) by reflexivity.
  assert (H2 : outcome x = Ok tt) by reflexivity.
  destruct (stream_cleanup "rtsp://h/live" 30 true true sc (mkFs [] []) H1)
    as (_ & Hend).
  destruct (Hend eq_refl H2) as [tr0 Htr].
  split; [exact H1|]. split; [reflexivity|]. split; [exact H2|].
  split; reflexivity.
Defined.

(** ** Files, from the entry point *)

(** X10: a run leaves every file it found and adds exactly the files
    [cv2.imwrite] put down; with saving on it calls [cv2.imwrite] once
    per capture, with saving off never. *)
Theorem files_follow_writes stream_url interval save_frames show_live sc fs :
  let x := capture_stream stream_url interval save_frames show_live sc fs in
  files (final_fs x) = rev (written (trace x)) ++ files fs /\
  length (imwrite_names (trace x)) =
    (if save_frames then length (capture_seqs (trace x)) else 0%nat).
Proof.
  cbv zeta.
  now destruct (capture_stream_files stream_url interval save_frames
                  show_live sc fs) as (H1 & H2 & _).
Qed.

(** X11: within a run no two calls of [cv2.imwrite] name the same file,
    whatever the time stamps (two captures in one second included):
    every name is that of a positive sequence number in the session
    folder, and in one folder the name tells the sequence number. *)
Theorem frame_files_never_clash :
  (forall stream_url interval save_frames show_live sc fs,
      let x := capture_stream stream_url interval save_frames show_live sc
                 fs in
      NoDup (imwrite_names (trace x)) /\
      Forall (fun name => exists n t,
                  (0 < n)%nat /\
                  name = frame_filename
                           (session_folder (session_timestamp sc)) n t)
        (imwrite_names (trace x))) /\
  (forall d n m t t',
      frame_filename d n t = frame_filename d m t' -> n = m).
Proof.
  split.
  - intros. subst x.
    now destruct (capture_stream_files stream_url interval save_frames
                    show_live sc fs) as (_ & _ & H3 & H4).
  - exact NameFacts.frame_filename_inj.
Qed.

(** ** The program run as a script *)

(** X12: run as a script the program polls its address as a snapshot
    address, which it is by its [snap] and not by its ending: it opens
    no video stream and reads from none, its requests go to that
    address with a timeout of 10 s and its sleeps last 30 s, in turns;
    and where the session folder is there already, the run starts by
    announcing the folder and the address and entering the poller. *)
Theorem main_polls_snapshots sc fs :
  let x := main sc fs in
  let d := session_folder (session_timestamp sc) in
  Str.endswith STREAM_URL ".jpg" = false /\
  classify STREAM_URL = Snapshot /\
  count is_video_capture (trace x) = 0%nat /\
  count is_read (trace x) = 0%nat /\
  (exists k,
      cadence (trace x) = firstn k (rounds STREAM_URL 30 (length (polls sc))))
  /\
  (existsb (String.eqb d) (dirs fs) = true ->
   exists tr',
     trace x =
       [Print (MsgSavedTo d); Print (MsgDetected STREAM_URL);
        Print (MsgEvery 30); Print MsgCtrlC] ++ tr').
Proof.
  cbv zeta. split; [reflexivity|]. split; [reflexivity|].
  unfold main. rewrite capture_stream_eq.
  assert (E : is_snapshot STREAM_URL = true) by reflexivity.
  rewrite E. cbv zeta. cbn [andb].
  set (d := session_folder (session_timestamp sc)).
  set (fs1 := if negb _ then _ else fs).
  destruct (capture_snapshot_stream_view STREAM_URL 30 true true d
              (polls sc) fs1) as (_ & _ & Hr & Hv & _).
  destruct (poll_loop_cadence STREAM_URL 30 true true d (polls sc) 0 fs1)
    as [k Hk].
  cbv zeta in Hr, Hv.
  rewrite !trace_prepend, !count_app, Hr, Hv.
  split; [|split; [|split]].
  - now destruct (existsb _ (dirs fs)).
  - now destruct (existsb _ (dirs fs)).
  - exists k. rewrite !cadence_app.
    assert (Hc : cadence
                   (trace (capture_snapshot_stream STREAM_URL 30 true true d
                             (polls sc) fs1)) =
                 firstn k (rounds STREAM_URL 30 (length (polls sc)))).
    { snapshot_shape STREAM_URL 30 true true d (polls sc) fs1.
      all: rewrite !cadence_app, Hk;
        cbn [cadence filter is_get is_sleep orb app];
        now rewrite app_nil_r. }
    rewrite Hc. now destruct (existsb _ (dirs fs)).
  - intros ->. rewrite capture_snapshot_stream_eq. cbv zeta.
    rewrite trace_prepend. eexists. cbn [app]. reflexivity.
Qed.

(** ** The snapshot poller called on its own *)

(** X13: [capture_snapshot_stream] makes no folder of its own: called
    with saving on it writes under the folder it is given, as that
    folder is, one new name per capture; the files it leaves are those
    it found and those [cv2.imwrite] put down. *)
Theorem poller_writes_where_told stream_url interval save_frames show_live
  output_folder steps fs :
  let x := capture_snapshot_stream stream_url interval save_frames show_live
             output_folder steps fs in
  count is_makedirs (trace x) = 0%nat /\
  dirs (final_fs x) = dirs fs /\
  files (final_fs x) = rev (written (trace x)) ++ files fs /\
  NoDup (imwrite_names (trace x)) /\
  Forall (fun name => exists n t,
              (0 < n)%nat /\ name = frame_filename output_folder n t)
    (imwrite_names (trace x)) /\
  length (imwrite_names (trace x)) =
    (if save_frames then length (capture_seqs (trace x)) else 0%nat).
Proof.
  cbv zeta.
  destruct (capture_snapshot_stream_fs stream_url interval save_frames
              show_live output_folder steps fs) as (Hm & Hd & _).
  cbv zeta in Hm, Hd. split; [exact Hm|]. split; [exact Hd|].
  pose proof (poll_loop_files stream_url interval save_frames show_live
                output_folder steps 0 fs) as (H1 & H2 & H3 & H4).
  cbv zeta in H1, H2, H3, H4. revert H1 H2 H3 H4.
  rewrite capture_snapshot_stream_eq. cbv zeta.
  destruct (poll_loop _ _ _ _ _ steps 0%nat fs) as [[tr fs1] r].
  cbn [trace outcome final_fs fst snd]. intros H1 H2 H3 H4.
  destruct r as [[[|[]] n]|e|];
    cbn [prepend trace final_fs outcome fst snd app written imwrite_names
         capture_seqs capture_seq];
    rewrite ?written_app, ?imwrite_names_app, ?capture_seqs_app;
    cbn [written imwrite_names capture_seqs capture_seq];
    rewrite ?app_nil_r; auto.
Qed.

(** ** Sequence numbers, captures and file names *)

Lemma capture_lines_app l1 l2 :
  capture_lines (l1 ++ l2) = capture_lines l1 ++ capture_lines l2.
Proof.
  induction l1 as [|e l1 IH]; [reflexivity|].
  destruct e as [[]| | | | | | | | | |]; cbn [app capture_lines];
    now rewrite IH.
Qed.

(** The numbers of the capture lines are the sequence numbers. *)
Lemma capture_lines_seqs tr : map fst (capture_lines tr) = capture_seqs tr.
Proof.
  induction tr as [|e tr IH]; [reflexivity|].
  destruct e as [[]| | | | | | | | | |];
    cbn [capture_lines capture_seqs capture_seq map fst]; now rewrite ?IH.
Qed.

Section PollLoopCaptures.
Variables (stream_url : string) (interval : Z).
Variables (save_frames show_live : bool) (d : string).
Local Abbreviation ploop :=
  (poll_loop stream_url interval save_frames show_live d).

(** The loop captures once in every pass whose response is good and in
    no other, and with saving on it hands every capture to
    [cv2.imwrite] under the name of its own number and time stamp,
    whether or not earlier writes went through. *)
Lemma poll_loop_captures steps : forall fc fs,
  let tr := trace (ploop steps fc fs) in
  length (capture_seqs tr) =
    length (filter good_response (firstn (count is_get tr) steps)) /\
  imwrite_names tr =
    (if save_frames
     then map (fun c => frame_filename d (fst c) (snd c)) (capture_lines tr)
     else []).
Proof.
  induction steps as [|s rest IH]; intros fc fs; cbv zeta.
  - cbn. now destruct save_frames.
  - generalize (eq_refl : good_response s =
                            match pl_fetch s with
                            | Response status_code (Some _) =>
                                status_code =? 200
                            | _ => false
                            end).
    poll_cases s.
    all: intros Hg; rewrite ?Hstatus in Hg.
    all: rewrite ?prepend_prepend, ?trace_prepend.
    all: poll_rest IH.
    all: cbn [trace fst snd] in *.
    all: rewrite ?count_app, ?capture_seqs_app, ?imwrite_names_app,
           ?capture_lines_app, ?map_app, ?length_app.
    all: cbn [app count filter is_get length capture_seqs capture_seq
              imwrite_names capture_lines map fst snd Nat.add firstn].
    all: rewrite ?Hg; cbn [length].
    all: try (destruct IH as [IH1 IH2]).
    all: split; try reflexivity; try (f_equal; assumption);
      try assumption; try lia.
Qed.
End PollLoopCaptures.

Section ReadLoopCaptures.
Variables (interval : Z) (save_frames show_live : bool) (d : string).
Local Abbreviation loop :=
  (read_loop interval save_frames show_live (Some d)).

(** With saving on the loop hands every capture to [cv2.imwrite] under
    the name of its own number and time stamp, whether or not earlier
    writes went through. *)
Lemma read_loop_names steps : forall last fc fs,
  let tr := trace (loop steps last fc fs) in
  imwrite_names tr =
    (if save_frames
     then map (fun c => frame_filename d (fst c) (snd c)) (capture_lines tr)
     else []).
Proof.
  induction steps as [|s rest IH]; intros last fc fs; cbv zeta.
  - cbn. now destruct save_frames.
  - read_cases s.
    all: rewrite ?prepend_prepend, ?trace_prepend.
    all: read_rest IH.
    all: destruct show_live; cbn [trace fst snd] in *.
    all: cbn [app imwrite_names capture_lines map fst snd].
    all: try reflexivity; try (f_equal; assumption); try assumption.
    all: now destruct save_frames.
Qed.
End ReadLoopCaptures.

(** The same from the entry point, for both branches. *)
Lemma capture_stream_names stream_url interval save_frames show_live sc fs :
  let tr := trace (capture_stream stream_url interval save_frames show_live
                     sc fs) in
  imwrite_names tr =
    (if save_frames
     then map (fun c => frame_filename
                          (session_folder (session_timestamp sc))
                          (fst c) (snd c)) (capture_lines tr)
     else []).
Proof.
  cbv zeta. destruct save_frames.
  2:{ destruct (capture_stream_fs stream_url interval false show_live sc fs)
        as (_ & _ & _ & _ & Hoff).
      destruct (Hoff eq_refl) as [Hc _].
      now destruct (no_imwrite _ Hc) as [-> _]. }
  rewrite capture_stream_eq. cbv zeta.
  set (d := session_folder (session_timestamp sc)).
  set (fs1 := if true && negb _ then _ else fs).
  set (setup := (if existsb _ (dirs fs) then [] else [Makedirs d]) ++ _).
  assert (Hsetup : imwrite_names setup = [] /\ capture_lines setup = []).
  { subst setup. now destruct (existsb _ (dirs fs)). }
  destruct Hsetup as (Hs1 & Hs2).
  rewrite trace_prepend, imwrite_names_app, capture_lines_app, Hs1, Hs2.
  cbn [app].
  destruct (is_snapshot stream_url).
  - rewrite trace_prepend. cbn [app imwrite_names capture_lines].
    rewrite capture_snapshot_stream_eq. cbv zeta.
    pose proof (poll_loop_captures stream_url interval true show_live d
                  (polls sc) 0 fs1) as (_ & H2).
    cbv zeta in H2.
    destruct (poll_loop _ _ _ _ _ (polls sc) 0%nat fs1) as [[tr fs2] r].
    cbn [trace outcome final_fs fst snd] in *.
    destruct r as [[[|[]] n]|e|];
      cbn [prepend trace final_fs outcome fst snd app imwrite_names
           capture_lines];
      rewrite ?imwrite_names_app, ?capture_lines_app;
      cbn [imwrite_names capture_lines]; rewrite ?app_nil_r; exact H2.
  - destruct (is_opened sc); [|reflexivity].
    pose proof (read_loop_names interval true show_live d (reads sc) 0 0
                  fs1) as H2.
    cbv zeta in H2.
    destruct (read_loop _ _ _ _ (reads sc) 0 0%nat fs1) as [[tr fs2] r].
    cbn [trace outcome final_fs fst snd] in *.
    destruct r as [n|e|];
      cbn [prepend trace final_fs outcome fst snd app imwrite_names
           capture_lines];
      rewrite ?imwrite_names_app, ?capture_lines_app;
      cbn [imwrite_names capture_lines]; rewrite ?app_nil_r; exact H2.
Qed.

(** From the entry point with saving on, the snapshot poller captures
    once in every pass whose response is good and in no other. *)
Lemma capture_stream_good_responses stream_url interval show_live sc fs :
  is_snapshot stream_url = true ->
  let tr := trace (capture_stream stream_url interval true show_live sc fs) in
  length (capture_seqs tr) =
  length (filter good_response (firstn (count is_get tr) (polls sc))).
Proof.
  intros Hsnap. cbv zeta. rewrite capture_stream_eq, Hsnap. cbv zeta.
  set (d := session_folder (session_timestamp sc)).
  set (fs1 := if true && negb _ then _ else fs).
  set (setup := (if existsb _ (dirs fs) then [] else [Makedirs d]) ++ _).
  assert (Hsetup : count is_get setup = 0%nat /\ capture_seqs setup = []).
  { subst setup. now destruct (existsb _ (dirs fs)). }
  destruct Hsetup as (Hs1 & Hs2).
  rewrite capture_snapshot_stream_eq. cbv zeta.
  pose proof (poll_loop_captures stream_url interval true show_live d
                (polls sc) 0 fs1) as (H1 & _).
  cbv zeta in H1.
  destruct (poll_loop _ _ _ _ _ (polls sc) 0%nat fs1) as [[tr fs2] r].
  cbn [trace outcome final_fs fst snd] in *.
  destruct r as [[[|[]] n]|e|];
    cbn [prepend trace final_fs outcome fst snd];
    rewrite ?count_app, ?capture_seqs_app, Hs1, Hs2;
    cbn [app count filter is_get length capture_seqs capture_seq Nat.add];
    rewrite ?app_nil_r, ?Nat.add_0_r; exact H1.
Qed.

(** The interval rule, for every frame a continuous run reads. *)
Lemma capture_stream_rule stream_url interval save_frames show_live sc fs i :
  is_snapshot stream_url = false ->
  let flags :=
    capture_flags (trace (capture_stream stream_url interval save_frames
                            show_live sc fs)) in
  let times := map rd_time (reads sc) in
  (i < length flags)%nat ->
  (nth i flags false = true <->
   interval <= nth i times 0 - previous_capture 0 flags times i).
Proof.
  intros Hsnap flags times Hi.
  destruct (capture_stream_flags stream_url interval save_frames show_live
              sc fs Hsnap) as [fs1 Hflags].
  fold flags in Hflags.
  destruct (is_opened sc); [|rewrite Hflags in Hi; cbn in Hi; lia].
  assert (Hof : save_frames = true ->
                (if save_frames
                 then Some (session_folder (session_timestamp sc))
                 else None) <> None)
    by (intros ->; discriminate).
  destruct (read_loop_flags interval save_frames show_live _ (reads sc)
              0 0 fs1 Hof) as [_ Hloop].
  rewrite <- Hflags in Hloop. now apply Hloop.
Qed.

(** The same for the snapshot poller called on its own. *)
Lemma capture_snapshot_stream_captures stream_url interval save_frames
  show_live output_folder steps fs :
  let tr := trace (capture_snapshot_stream stream_url interval save_frames
                     show_live output_folder steps fs) in
  length (capture_seqs tr) =
    length (filter good_response (firstn (count is_get tr) steps)) /\
  imwrite_names tr =
    (if save_frames
     then map (fun c => frame_filename output_folder (fst c) (snd c))
            (capture_lines tr)
     else []).
Proof.
  cbv zeta. rewrite capture_snapshot_stream_eq. cbv zeta.
  pose proof (poll_loop_captures stream_url interval save_frames show_live
                output_folder steps 0 fs) as (H1 & H2).
  cbv zeta in H1, H2.
  destruct (poll_loop _ _ _ _ _ steps 0%nat fs) as [[tr fs2] r].
  cbn [trace outcome final_fs fst snd] in *.
  destruct r as [[[|[]] n]|e|];
    cbn [prepend trace final_fs outcome fst snd];
    rewrite ?count_app, ?capture_seqs_app, ?imwrite_names_app,
      ?capture_lines_app;
    cbn [app count filter is_get length capture_seqs capture_seq Nat.add
         imwrite_names capture_lines];
    rewrite ?app_nil_r, ?Nat.add_0_r; split; assumption.
Qed.

(** C6: in either mode the captures of a session are numbered
    1, 2, 3, ... without gap or repeat, and a total the run reports is
    their number.  The counter moves by one per capture and only then:
    in snapshot mode the captures are as many as the good responses
    (status 200, body decoded) among the requests made, however many
    requests failed in between; in continuous mode they are as many as
    the frames read that met the interval rule, however many were
    skipped.  With saving on every capture is handed to [cv2.imwrite]
    under the name of its own sequence number and time stamp, whether
    or not that or an earlier write goes through, so the number of a
    failed write is not given again.  The first part is the run from
    the entry point, the second the snapshot poller called on its own. *)
Theorem sequence_numbers_consecutive :
  (forall stream_url interval save_frames show_live sc fs,
      let tr := trace (capture_stream stream_url interval save_frames
                         show_live sc fs) in
      let d := session_folder (session_timestamp sc) in
      let flags := capture_flags tr in
      let times := map rd_time (reads sc) in
      capture_seqs tr = seq 1 (length (capture_seqs tr)) /\
      (forall n, In n (totals tr) -> n = length (capture_seqs tr)) /\
      map fst (capture_lines tr) = capture_seqs tr /\
      imwrite_names tr =
        (if save_frames
         then map (fun c => frame_filename d (fst c) (snd c))
                (capture_lines tr)
         else []) /\
      (is_snapshot stream_url = true ->
       length (capture_seqs tr) =
       length (filter good_response
                 (firstn (count is_get tr) (polls sc)))) /\
      (is_snapshot stream_url = false ->
       length (capture_seqs tr) = length (filter (fun b : bool => b) flags) /\
       forall i, (i < length flags)%nat ->
         (nth i flags false = true <->
          interval <= nth i times 0 - previous_capture 0 flags times i))) /\
  (forall stream_url interval save_frames show_live output_folder steps fs,
      let tr := trace (capture_snapshot_stream stream_url interval
                         save_frames show_live output_folder steps fs) in
      capture_seqs tr = seq 1 (length (capture_seqs tr)) /\
      (forall n, In n (totals tr) -> n = length (capture_seqs tr)) /\
      map fst (capture_lines tr) = capture_seqs tr /\
      imwrite_names tr =
        (if save_frames
         then map (fun c => frame_filename output_folder (fst c) (snd c))
                (capture_lines tr)
         else []) /\
      length (capture_seqs tr) =
      length (filter good_response (firstn (count is_get tr) steps))).
Proof.
  split.
  - intros. subst tr d flags times.
    destruct (capture_stream_seqs stream_url interval save_frames show_live
                sc fs) as [Hseq Htot].
    split; [exact Hseq|]. split; [exact Htot|].
    split; [apply capture_lines_seqs|].
    split; [apply capture_stream_names|]. split.
    + intros Hsnap. destruct save_frames.
      * now apply capture_stream_good_responses.
      * rewrite capture_stream_eq, Hsnap. reflexivity.
    + intros Hsnap. split.
      * symmetry. now apply capture_stream_flag_count.
      * intros i Hi. now apply capture_stream_rule.
  - intros. subst tr.
    destruct (capture_snapshot_stream_seqs stream_url interval save_frames
                show_live output_folder steps fs) as [Hseq Htot].
    destruct (capture_snapshot_stream_captures stream_url interval
                save_frames show_live output_folder steps fs) as [Hg Hn].
    split; [exact Hseq|]. split; [exact Htot|].
    split; [apply capture_lines_seqs|]. split; [exact Hn | exact Hg].
Qed.

Lemma sequence_numbers_consecutive_witness :
  let stamp := "2024-01-02_03-05-05"%string in
  let sc := mkScript "S" true []
              [mkPoll (Response 200 (Some 1%nat)) stamp true (-1) false;
               mkPoll (FetchError "timed out") stamp true (-1) false;
               mkPoll (Response 200 (Some 2%nat)) stamp false (-1) false;
               mkPoll (Response 500 (Some 3%nat)) stamp true (-1) false;
               mkPoll (Response 200 (Some 4%nat)) stamp true (-1) false] in
  let x := capture_stream "http://h/snap" 30 true false sc (mkFs [] []) in
  is_snapshot "http://h/snap" = true /\
  count is_get (trace x) = 5%nat /\
  capture_seqs (trace x) = [1; 2; 3]%nat /\
  imwrite_names (trace x) =
    ["captured_frames/session_S/frame_1_2024-01-02_03-05-05.jpg"%string;
     "captured_frames/session_S/frame_2_2024-01-02_03-05-05.jpg"%string;
     "captured_frames/session_S/frame_3_2024-01-02_03-05-05.jpg"%string] /\
  written (trace x) =
    ["captured_frames/session_S/frame_1_2024-01-02_03-05-05.jpg"%string;
     "captured_frames/session_S/frame_3_2024-01-02_03-05-05.jpg"%string] /\
  length (capture_seqs (trace x)) =
  length (filter good_response (firstn (count is_get (trace x)) (polls sc))).
Proof.
  intros stamp sc x.
  assert (H : is_snapshot "http://h/snap" = true) by reflexivity.
  destruct sequence_numbers_consecutive as [Hentry _].
  destruct (Hentry "http://h/snap" 30 true false sc (mkFs [] []))
    as (_ & _ & _ & _ & Hgood & _).
  split; [exact H|]. split; [reflexivity|]. split; [reflexivity|].
  split; [reflexivity|]. split; [reflexivity|]. exact (Hgood H).
Defined.
